(** * Permission value object and Role entity: a shallow embedding

  The development follows [core/domain/value-objects/Permission.ts] and
  [core/domain/entities/Role.ts], with the [Password] value object and
  the create, update and get role use cases around them.  JavaScript
  strings are sequences of UTF-16 code units; they are modelled as lists
  of code units so that [String.prototype.split], [trim], [includes] and
  [===] keep their meaning on every string, not only on ASCII text. *)

From Stdlib Require Import List NArith ZArith Bool Ascii String Lia.
Import ListNotations.

(** ** JavaScript strings *)

Module JsString.

Definition jsstring := list N.

(** An ASCII literal of the source, as code units. *)
Definition lit (s : string) : jsstring :=
  map N_of_ascii (list_ascii_of_string s).

(** [s1 === s2] on strings. *)
Fixpoint eqb (s1 s2 : jsstring) : bool :=
  match s1, s2 with
  | [], [] => true
  | c1 :: r1, c2 :: r2 => N.eqb c1 c2 && eqb r1 r2
  | _, _ => false
  end.

(** [a === b] where either side may be [undefined] (or [null]). *)
Definition opt_eqb (a b : option jsstring) : bool :=
  match a, b with
  | None, None => true
  | Some x, Some y => eqb x y
  | _, _ => false
  end.

(** Truthiness of a [string | undefined] value: [undefined] and the empty
    string are falsy, every other string is truthy. *)
Definition truthy (o : option jsstring) : bool :=
  match o with
  | Some (_ :: _) => true
  | _ => false
  end.

(** [arr.includes(x)] on an array of strings. *)
Definition includes (arr : list jsstring) (x : jsstring) : bool :=
  existsb (eqb x) arr.

Definition colon : N := 58.

(** [s.split(sep)] for a one-unit separator: one more segment than there
    are separators, the empty string giving one empty segment. *)
Fixpoint split (sep : N) (s : jsstring) : list jsstring :=
  match s with
  | [] => [[]]
  | c :: rest =>
      if N.eqb c sep then [] :: split sep rest
      else match split sep rest with
           | seg :: segs => (c :: seg) :: segs
           | [] => [[c]]
           end
  end.

(** [arr.join(sep)] *)
Fixpoint join (sep : N) (arr : list jsstring) : jsstring :=
  match arr with
  | [] => []
  | [x] => x
  | x :: rest => x ++ sep :: join sep rest
  end.

(** ECMAScript WhiteSpace and LineTerminator code points, the ones
    [trim] strips. *)
Definition isWhiteSpace (c : N) : bool :=
  match c with
  | 9%N | 10%N | 11%N | 12%N | 13%N | 32%N | 160%N => true
  | 5760%N => true
  | 8232%N | 8233%N | 8239%N | 8287%N | 12288%N | 65279%N => true
  | _ => (8192 <=? c)%N && (c <=? 8202)%N
  end.

Fixpoint trimStart (s : jsstring) : jsstring :=
  match s with
  | [] => []
  | c :: rest => if isWhiteSpace c then trimStart rest else s
  end.

Definition trimEnd (s : jsstring) : jsstring :=
  rev (trimStart (rev s)).

Definition trim (s : jsstring) : jsstring :=
  trimEnd (trimStart s).

End JsString.

Import JsString.

(** ** Permission *)

Module Permission.

Definition validResources : list jsstring :=
  map lit
    ["user"; "role"; "student"; "teacher"; "class"; "subject";
     "assignment"; "grade"; "attendance"; "schedule"; "announcement";
     "report"; "system"]%string.

Definition validActions : list jsstring :=
  map lit ["create"; "read"; "update"; "delete"; "manage"]%string.

(** The private constructor's three fields.  At run time the resource and
    the action are strings; [scope] is [undefined] when absent. *)
Record Permission : Type := mkPermission {
  resource : jsstring;
  action : jsstring;
  scope : option jsstring
}.

(** The three [throw new Error(...)] sites of [create], each with the
    segment its message interpolates. *)
Inductive PermissionError : Type :=
| InvalidFormat
| InvalidResource (resource : jsstring)
| InvalidAction (action : jsstring).

Definition quoted (s : jsstring) : jsstring := [34%N] ++ s ++ [34%N].

Definition message (e : PermissionError) : jsstring :=
  match e with
  | InvalidFormat =>
      lit "Invalid permission format. Expected " ++ quoted (lit "resource:action")
        ++ lit " or " ++ quoted (lit "resource:action:scope")
  | InvalidResource r => lit "Invalid permission resource: " ++ r
  | InvalidAction a => lit "Invalid permission action: " ++ a
  end.

Definition isValidResource (resource : jsstring) : bool :=
  includes validResources resource.

Definition isValidAction (action : jsstring) : bool :=
  includes validActions action.

(** [Permission.create]: [inl] is a thrown error. *)
Definition create (permissionString : jsstring)
  : PermissionError + Permission :=
  let parts := split colon permissionString in
  if (List.length parts <? 2) || (3 <? List.length parts) then inl InvalidFormat
  else
    let resource := nth 0 parts [] in
    let action := nth 1 parts [] in
    let scope := nth_error parts 2 in
    if negb (isValidResource resource) then inl (InvalidResource resource)
    else if negb (isValidAction action) then inl (InvalidAction action)
    else inr (mkPermission resource action scope).

Definition fromComponents (resource action : jsstring)
    (scope : option jsstring) : Permission :=
  mkPermission resource action scope.

Definition toString (this : Permission) : jsstring :=
  if truthy (scope this)
  then resource this ++ [colon] ++ action this ++ [colon]
         ++ match scope this with Some s => s | None => [] end
  else resource this ++ [colon] ++ action this.

Definition matches (this required : Permission) : bool :=
  if negb (eqb (resource this) (resource required)) then false
  else if eqb (action this) (lit "manage") then true
  else if negb (eqb (action this) (action required)) then false
  else if truthy (scope required)
       then negb (truthy (scope this))
            || opt_eqb (scope this) (scope required)
  else true.

Definition implies (this other : Permission) : bool :=
  matches this other.

Definition getResource (this : Permission) : jsstring := resource this.
Definition getAction (this : Permission) : jsstring := action this.
Definition getScope (this : Permission) : option jsstring := scope this.

Definition equals (this other : Permission) : bool :=
  eqb (resource this) (resource other)
  && eqb (action this) (action other)
  && opt_eqb (scope this) (scope other).

End Permission.

Import Permission.

(** ** Role *)

Module Role.

(** A property of an object literal passed as [props]: left out, written
    with the value [undefined], or written with a value.  Reading the
    property does not tell the first two apart. *)
Inductive JsField (A : Type) : Type :=
| Omitted
| Undefined
| Value (a : A).

Arguments Omitted {A}.
Arguments Undefined {A}.
Arguments Value {A} a.

(** [props.f] *)
Definition read {A : Type} (f : JsField A) : option A :=
  match f with
  | Value a => Some a
  | Omitted | Undefined => None
  end.

(** [x || null] on a [string | undefined] value. *)
Definition orNull (x : option jsstring) : option jsstring :=
  if truthy x then x else None.

(** [x?.trim()] *)
Definition optTrim (x : option jsstring) : option jsstring :=
  option_map trim x.

(** A [Date], as milliseconds since the epoch. *)
Definition Date := Z.

Record Role : Type := mkRole {
  id : jsstring;
  name : jsstring;
  displayName : jsstring;
  description : option jsstring;
  permissions : list jsstring;
  tenantId : option jsstring;
  isActive : bool;
  createdAt : Date;
  updatedAt : Date
}.

Record CreateProps : Type := mkCreateProps {
  cp_name : jsstring;
  cp_displayName : jsstring;
  cp_description : JsField jsstring;
  cp_permissions : JsField (list jsstring);
  cp_tenantId : JsField jsstring
}.

Record UpdateProps : Type := mkUpdateProps {
  up_displayName : JsField jsstring;
  up_description : JsField jsstring
}.

(** [Role.create]; [uuid] is what [crypto.randomUUID()] returns and [now]
    what [new Date()] reads at the call.  The entity keeps the caller's
    [permissions] array itself; the record holds its contents at the time
    of the call. *)
Definition create (uuid : jsstring) (now : Date) (props : CreateProps) : Role :=
  mkRole uuid
         (cp_name props)
         (trim (cp_displayName props))
         (orNull (optTrim (read (cp_description props))))
         (match read (cp_permissions props) with Some l => l | None => [] end)
         (orNull (read (cp_tenantId props)))
         true
         now
         now.

(** [Role.reconstitute] takes a record with the entity's own fields. *)
Definition reconstitute (props : Role) : Role :=
  mkRole (id props) (name props) (displayName props) (description props)
         (permissions props) (tenantId props) (isActive props)
         (createdAt props) (updatedAt props).

Definition getId (this : Role) : jsstring := id this.
Definition getName (this : Role) : jsstring := name this.
Definition getDisplayName (this : Role) : jsstring := displayName this.
Definition getDescription (this : Role) : option jsstring := description this.
Definition getPermissions (this : Role) : list jsstring := permissions this.
Definition getTenantId (this : Role) : option jsstring := tenantId this.
Definition getIsActive (this : Role) : bool := isActive this.
Definition getCreatedAt (this : Role) : Date := createdAt this.
Definition getUpdatedAt (this : Role) : Date := updatedAt this.

Definition set_displayName (v : jsstring) (this : Role) : Role :=
  mkRole (id this) (name this) v (description this) (permissions this)
         (tenantId this) (isActive this) (createdAt this) (updatedAt this).

Definition set_description (v : option jsstring) (this : Role) : Role :=
  mkRole (id this) (name this) (displayName this) v (permissions this)
         (tenantId this) (isActive this) (createdAt this) (updatedAt this).

Definition set_permissions (v : list jsstring) (this : Role) : Role :=
  mkRole (id this) (name this) (displayName this) (description this) v
         (tenantId this) (isActive this) (createdAt this) (updatedAt this).

Definition set_isActive (v : bool) (this : Role) : Role :=
  mkRole (id this) (name this) (displayName this) (description this)
         (permissions this) (tenantId this) v (createdAt this) (updatedAt this).

(** [touch]: [this.updatedAt = new Date()], [now] being the clock reading. *)
Definition touch (now : Date) (this : Role) : Role :=
  mkRole (id this) (name this) (displayName this) (description this)
         (permissions this) (tenantId this) (isActive this) (createdAt this) now.

Definition updateDetails (now : Date) (props : UpdateProps) (this : Role) : Role :=
  let this1 :=
    match read (up_displayName props) with
    | Some s => if truthy (Some s) then set_displayName (trim s) this else this
    | None => this
    end in
  let this2 :=
    match read (up_description props) with
    | Some s => set_description (orNull (optTrim (Some s))) this1
    | None => this1
    end in
  touch now this2.

Definition addPermission (now : Date) (permission : jsstring) (this : Role) : Role :=
  if negb (includes (permissions this) permission)
  then touch now (set_permissions (permissions this ++ [permission]) this)
  else this.

(** [arr.indexOf(x)]: the first index holding [x], [-1] when there is none. *)
Fixpoint indexOfFrom (i : Z) (arr : list jsstring) (x : jsstring) : Z :=
  match arr with
  | [] => -1
  | y :: rest => if eqb y x then i else indexOfFrom (i + 1) rest x
  end.

Definition indexOf (arr : list jsstring) (x : jsstring) : Z :=
  indexOfFrom 0 arr x.

(** [arr.splice(index, 1)] for [0 <= index]: the array without that slot. *)
Definition splice1 (index : Z) (arr : list jsstring) : list jsstring :=
  firstn (Z.to_nat index) arr ++ skipn (S (Z.to_nat index)) arr.

Definition removePermission (now : Date) (permission : jsstring) (this : Role) : Role :=
  let index := indexOf (permissions this) permission in
  if (-1 <? index)%Z
  then touch now (set_permissions (splice1 index (permissions this)) this)
  else this.

Definition setPermissions (now : Date) (perms : list jsstring) (this : Role) : Role :=
  touch now (set_permissions perms this).

Definition hasPermission (this : Role) (permission : jsstring) : bool :=
  includes (permissions this) permission.

Definition hasAnyPermission (this : Role) (perms : list jsstring) : bool :=
  existsb (fun p => includes (permissions this) p) perms.

Definition hasAllPermissions (this : Role) (perms : list jsstring) : bool :=
  forallb (fun p => includes (permissions this) p) perms.

Definition activate (now : Date) (this : Role) : Role :=
  touch now (set_isActive true this).

Definition deactivate (now : Date) (this : Role) : Role :=
  touch now (set_isActive false this).

Definition toPersistence (this : Role) : Role := this.

End Role.

(** ** Password *)

Module Password.

(** The character classes of the validation regular expressions, on one
    code unit. *)
Definition inRange (lo hi c : N) : bool := ((lo <=? c) && (c <=? hi))%N.

Definition isUppercase (c : N) : bool := inRange 65 90 c.
Definition isLowercase (c : N) : bool := inRange 97 122 c.
Definition isNumber (c : N) : bool := inRange 48 57 c.

(** The members of the class of special characters, in the order the
    source lists them. *)
Definition specialCharacters : jsstring :=
  lit "!@#$%^&*()_+-=[]{};':" ++ [34%N] ++ lit "\|,.<>/?".

Definition isSpecialCharacter (c : N) : bool :=
  existsb (N.eqb c) specialCharacters.

(** [/[class]/.test(s)]: some code unit of [s] is in the class. *)
Definition test (class : N -> bool) (s : jsstring) : bool :=
  existsb class s.

(** [(s.match(/[class]/g) || []).length] *)
Definition matchCount (class : N -> bool) (s : jsstring) : nat :=
  List.length (filter class s).

Record Password : Type := mkPassword { value : jsstring }.

(** The seven [throw new Error(...)] sites of [create], in source order. *)
Inductive PasswordError : Type :=
| CannotBeEmpty
| TooShort
| TooLong
| NoUppercase
| NoLowercase
| NoNumber
| NoSpecialCharacter.

Definition message (e : PasswordError) : jsstring :=
  match e with
  | CannotBeEmpty => lit "Password cannot be empty"
  | TooShort => lit "Password must be at least 8 characters long"
  | TooLong => lit "Password is too long"
  | NoUppercase => lit "Password must contain at least one uppercase letter"
  | NoLowercase => lit "Password must contain at least one lowercase letter"
  | NoNumber => lit "Password must contain at least one number"
  | NoSpecialCharacter =>
      lit "Password must contain at least one special character"
  end.

(** [Password.create]; the argument is a string, so only the empty string
    takes the first branch. *)
Definition create (password : jsstring) : PasswordError + Password :=
  if negb (truthy (Some password)) then inl CannotBeEmpty
  else if List.length password <? 8 then inl TooShort
  else if 100 <? List.length password then inl TooLong
  else if negb (test isUppercase password) then inl NoUppercase
  else if negb (test isLowercase password) then inl NoLowercase
  else if negb (test isNumber password) then inl NoNumber
  else if negb (test isSpecialCharacter password) then inl NoSpecialCharacter
  else inr (mkPassword password).

Definition createWithoutValidation (password : jsstring) : Password :=
  mkPassword password.

Definition getValue (this : Password) : jsstring := value this.

Inductive StrengthLevel : Type := weak | medium | strong.

Definition getStrengthLevel (this : Password) : StrengthLevel :=
  if List.length (value this) <? 12 then weak
  else
    let hasMultipleNumbers := 2 <=? matchCount isNumber (value this) in
    let hasMultipleSpecialChars :=
      2 <=? matchCount isSpecialCharacter (value this) in
    if (16 <=? List.length (value this))
       && hasMultipleNumbers && hasMultipleSpecialChars
    then strong
    else medium.

(** [if (c) score += n] *)
Definition addIf (c : bool) (n score : nat) : nat :=
  if c then score + n else score.

Definition getStrengthScore (this : Password) : nat :=
  let len := List.length (value this) in
  let score := 0 in
  let score := addIf (8 <=? len) 10 score in
  let score := addIf (12 <=? len) 10 score in
  let score := addIf (16 <=? len) 10 score in
  let score := addIf (20 <=? len) 10 score in
  let uppercaseCount := matchCount isUppercase (value this) in
  let lowercaseCount := matchCount isLowercase (value this) in
  let numberCount := matchCount isNumber (value this) in
  let specialCharCount := matchCount isSpecialCharacter (value this) in
  let score := addIf (0 <? uppercaseCount) 10 score in
  let score := addIf (0 <? lowercaseCount) 10 score in
  let score := addIf (0 <? numberCount) 10 score in
  let score := addIf (0 <? specialCharCount) 10 score in
  let score := addIf (2 <=? numberCount) 5 score in
  let score := addIf (2 <=? specialCharCount) 10 score in
  let score := addIf (2 <=? uppercaseCount) 5 score in
  Nat.min score 100.

Definition equals (this other : Password) : bool :=
  eqb (value this) (value other).

End Password.

(** ** The role use cases

    [CreateRoleUseCase], [UpdateRoleUseCase] and [GetRoleUseCase] talk to
    an [IRoleRepository].  What the repository answers to the lookup is an
    argument of each function here, and the role handed to [save] is part
    of the result; a rejected repository promise is outside the model. *)

Module RoleUseCases.

Import Role.

Inductive RoleException : Type :=
| RoleNotFoundException (message : jsstring)
| DuplicateRoleException (message : jsstring).

(** Passing [dto.f] on as the property of a fresh object literal: the
    property is always written, with [undefined] when [dto.f] reads so. *)
Definition pass {A : Type} (f : JsField A) : JsField A :=
  match read f with
  | Some a => Value a
  | None => Undefined
  end.

Record CreateRoleDTO : Type := mkCreateRoleDTO {
  cr_name : jsstring;
  cr_displayName : jsstring;
  cr_description : JsField jsstring;
  cr_permissions : JsField (list jsstring);
  cr_isActive : JsField bool;
  cr_tenantId : JsField jsstring
}.

Record CreateRoleResult : Type := mkCreateRoleResult {
  crr_roleId : jsstring;
  crr_name : jsstring;
  crr_displayName : jsstring;
  crr_permissions : list jsstring;
  crr_createdAt : Date
}.

(** [CreateRoleUseCase.execute]: [existingRole] is what [findByName]
    resolved to; on success the first component is the role saved. *)
Definition createRole (existingRole : option Role) (uuid : jsstring)
    (now : Date) (dto : CreateRoleDTO)
  : RoleException + (Role * CreateRoleResult) :=
  match existingRole with
  | Some _ =>
      inl (DuplicateRoleException
             (lit "Role with name " ++ cr_name dto ++ lit " already exists"))
  | None =>
      let role :=
        Role.create uuid now
          (mkCreateProps (cr_name dto) (cr_displayName dto)
             (pass (cr_description dto))
             (Value (match read (cr_permissions dto) with
                     | Some l => l
                     | None => []
                     end))
             (pass (cr_tenantId dto))) in
      inr (role,
           mkCreateRoleResult (getId role) (getName role)
             (getDisplayName role) (getPermissions role) (getCreatedAt role))
  end.

Record UpdateRoleDTO : Type := mkUpdateRoleDTO {
  ur_roleId : jsstring;
  ur_displayName : JsField jsstring;
  ur_description : JsField jsstring;
  ur_permissions : JsField (list jsstring)
}.

Record UpdateRoleResult : Type := mkUpdateRoleResult {
  urr_roleId : jsstring;
  urr_name : jsstring;
  urr_displayName : jsstring;
  urr_description : option jsstring;
  urr_permissions : list jsstring;
  urr_updatedAt : Date
}.

Definition isDefined {A : Type} (f : JsField A) : bool :=
  match read f with
  | Some _ => true
  | None => false
  end.

(** [UpdateRoleUseCase.execute]: [found] is what [findById] resolved to,
    [now1] and [now2] the clock readings of the two mutators, should they
    run; on success the first component is the role saved. *)
Definition updateRole (found : option Role) (now1 now2 : Date)
    (dto : UpdateRoleDTO)
  : RoleException + (Role * UpdateRoleResult) :=
  match found with
  | None =>
      inl (RoleNotFoundException
             (lit "Role with ID " ++ ur_roleId dto ++ lit " not found"))
  | Some role =>
      let role1 :=
        if isDefined (ur_displayName dto) || isDefined (ur_description dto)
        then updateDetails now1
               (mkUpdateProps (pass (ur_displayName dto))
                  (pass (ur_description dto)))
               role
        else role in
      let role2 :=
        match read (ur_permissions dto) with
        | Some perms => setPermissions now2 perms role1
        | None => role1
        end in
      inr (role2,
           mkUpdateRoleResult (getId role2) (getName role2)
             (getDisplayName role2) (orNull (getDescription role2))
             (getPermissions role2) (getUpdatedAt role2))
  end.

Record GetRoleResult : Type := mkGetRoleResult {
  gr_roleId : jsstring;
  gr_name : jsstring;
  gr_displayName : jsstring;
  gr_description : option jsstring;
  gr_permissions : list jsstring;
  gr_isActive : bool;
  gr_tenantId : option jsstring;
  gr_createdAt : Date;
  gr_updatedAt : Date
}.

(** [GetRoleUseCase.execute] *)
Definition getRole (found : option Role) (roleId : jsstring)
  : RoleException + GetRoleResult :=
  match found with
  | None =>
      inl (RoleNotFoundException
             (lit "Role with ID " ++ roleId ++ lit " not found"))
  | Some role =>
      inr (mkGetRoleResult (getId role) (getName role) (getDisplayName role)
             (orNull (getDescription role)) (getPermissions role)
             (getIsActive role) (orNull (getTenantId role))
             (getCreatedAt role) (getUpdatedAt role))
  end.

End RoleUseCases.

(** ** Sequences of mutator calls *)

Module RoleLifecycle.

Import Role.

(** [arr.filter((p) => p === x).length], the count the test suite takes. *)
Definition occurrences (x : jsstring) (arr : list jsstring) : nat :=
  List.length (filter (eqb x) arr).

(** One call of a mutator of [Role], with its arguments. *)
Inductive Call : Type :=
| UpdateDetails (props : UpdateProps)
| AddPermission (permission : jsstring)
| RemovePermission (permission : jsstring)
| SetPermissions (perms : list jsstring)
| Activate
| Deactivate.

Definition call (now : Date) (c : Call) (this : Role) : Role :=
  match c with
  | UpdateDetails props => updateDetails now props this
  | AddPermission p => addPermission now p this
  | RemovePermission p => removePermission now p this
  | SetPermissions perms => setPermissions now perms this
  | Activate => activate now this
  | Deactivate => deactivate now this
  end.

(** The calls of a list in order, each at its own clock reading. *)
Fixpoint run (calls : list (Date * Call)) (this : Role) : Role :=
  match calls with
  | [] => this
  | (now, c) :: rest => run rest (call now c this)
  end.

(** The clock never runs backwards: each reading is at least the one
    before, the first at least [t]. *)
Fixpoint monotoneFrom (t : Date) (calls : list (Date * Call)) : Prop :=
  match calls with
  | [] => True
  | (now, _) :: rest => (t <= now)%Z /\ monotoneFrom now rest
  end.

(** Every list handed to [setPermissions] is duplicate-free. *)
Fixpoint setsDuplicateFree (calls : list (Date * Call)) : Prop :=
  match calls with
  | [] => True
  | (_, SetPermissions perms) :: rest => NoDup perms /\ setsDuplicateFree rest
  | _ :: rest => setsDuplicateFree rest
  end.

End RoleLifecycle.

(** ** Properties as the specification states them *)

Module Stated.

(** The matching rule as the specification words it, "has no scope" read
    as the scope being absent ([undefined]). *)
Definition matches_as_specified (a b : Permission) : Prop :=
  resource a = resource b
  /\ (action a = lit "manage"
      \/ (action a = action b
          /\ (scope b = None \/ scope a = None \/ scope a = scope b))).

(** The same rule with "no scope" read the way the code tests it: the scope
    is falsy, that is absent or the empty string. *)
Definition matches_rule (a b : Permission) : Prop :=
  resource a = resource b
  /\ (action a = lit "manage"
      \/ (action a = action b
          /\ (truthy (scope b) = false \/ truthy (scope a) = false
              \/ scope a = scope b))).

Definition segment_count_ok (n : nat) : Prop := n = 2 \/ n = 3.

(** Duplicate-freedom of a role's permission list. *)
Definition duplicateFree (this : Role.Role) : Prop :=
  NoDup (Role.permissions this).

(** A mutator advances [updatedAt]: called at a clock reading later than
    the stored stamp, it leaves a later stamp. *)
Definition advancesUpdatedAt (m : Role.Date -> Role.Role -> Role.Role) : Prop :=
  forall (now : Role.Date) (this : Role.Role),
    (Role.updatedAt this < now)%Z ->
    (Role.updatedAt this < Role.updatedAt (m now this))%Z.

(** A string with a code unit that [trim] does not strip. *)
Definition hasVisibleUnit (s : jsstring) : Prop :=
  exists c, In c s /\ isWhiteSpace c = false.

(** A role as [Role.create] builds it at clock reading [0] from a name, a
    display name and a permission list, as the test suite does. *)
Definition newRole (name displayName : string) (perms : list jsstring)
  : Role.Role :=
  Role.create (lit "00000000-0000-4000-8000-000000000000") 0%Z
    (Role.mkCreateProps (lit name) (lit displayName) Role.Omitted
       (Role.Value perms) Role.Omitted).

End Stated.

Import Stated.

(** ** Facts about the string operations *)

Module JsStringFacts.

Lemma eqb_eq (s1 s2 : jsstring) : eqb s1 s2 = true <-> s1 = s2.
Proof.
  revert s2; induction s1 as [|c1 r1 IH]; intros [|c2 r2]; simpl;
    try (split; [discriminate | discriminate]); try tauto.
  rewrite andb_true_iff, N.eqb_eq, IH.
  split; [intros [-> ->]; reflexivity | intros E; inversion E; auto].
Qed.

Lemma eqb_refl (s : jsstring) : eqb s s = true.
Proof. apply eqb_eq; reflexivity. Qed.

Lemma eqb_neq (s1 s2 : jsstring) : eqb s1 s2 = false <-> s1 <> s2.
Proof.
  rewrite <- eqb_eq. destruct (eqb s1 s2); split; congruence.
Qed.

Lemma opt_eqb_eq (a b : option jsstring) : opt_eqb a b = true <-> a = b.
Proof.
  destruct a as [x|], b as [y|]; simpl; try (split; congruence).
  rewrite eqb_eq. split; congruence.
Qed.

Lemma includes_In (arr : list jsstring) (x : jsstring) :
  includes arr x = true <-> In x arr.
Proof.
  unfold includes. rewrite existsb_exists. split.
  - intros [y [Hy E]]. apply eqb_eq in E. subst; assumption.
  - intros H. exists x. split; [assumption | apply eqb_refl].
Qed.

Lemma includes_not_In (arr : list jsstring) (x : jsstring) :
  includes arr x = false <-> ~ In x arr.
Proof.
  rewrite <- includes_In. destruct (includes arr x); split; congruence.
Qed.

Lemma truthy_false (o : option jsstring) :
  truthy o = false <-> o = None \/ o = Some [].
Proof.
  destruct o as [[|c s]|]; simpl; split; intros H; auto;
    try discriminate; destruct H; discriminate.
Qed.

(** [split] never returns the empty array. *)
Lemma split_nonempty (sep : N) (s : jsstring) : split sep s <> [].
Proof.
  destruct s as [|c r]; simpl; [discriminate|].
  destruct (N.eqb c sep); [discriminate|].
  destruct (split sep r); discriminate.
Qed.

(** One segment more than there are separators. *)
Lemma split_length (sep : N) (s : jsstring) :
  List.length (split sep s) = S (count_occ N.eq_dec s sep).
Proof.
  induction s as [|c r IH]; simpl; [reflexivity|].
  destruct (N.eqb_spec c sep) as [E|E].
  - destruct (N.eq_dec c sep); [|contradiction]. simpl. now rewrite IH.
  - destruct (N.eq_dec c sep); [contradiction|].
    destruct (split sep r) eqn:Hs; simpl in *; [discriminate | exact IH].
Qed.

(** No segment holds the separator. *)
Lemma split_no_sep (sep : N) (s seg : jsstring) :
  In seg (split sep s) -> ~ In sep seg.
Proof.
  revert seg; induction s as [|c r IH]; simpl; intros seg H.
  - destruct H as [<-|[]]. intros [].
  - destruct (N.eqb_spec c sep) as [E|E].
    + destruct H as [<-|H]; [intros [] | auto].
    + destruct (split sep r) as [|g gs] eqn:Hs.
      * destruct H as [<-|[]]. intros [C|[]]. congruence.
      * destruct H as [<-|H].
        -- intros [C|C]; [congruence|]. apply (IH g); [left; reflexivity | exact C].
        -- apply IH. right; exact H.
Qed.

(** Joining the segments gives the string back. *)
Lemma join_split (sep : N) (s : jsstring) : join sep (split sep s) = s.
Proof.
  induction s as [|c r IH]; [reflexivity|].
  simpl. destruct (N.eqb_spec c sep) as [E|E].
  - pose proof (split_nonempty sep r) as Hne.
    destruct (split sep r) as [|g gs] eqn:Hs; [contradiction|].
    simpl in *. rewrite IH, E. reflexivity.
  - pose proof (split_nonempty sep r) as Hne.
    destruct (split sep r) as [|g gs] eqn:Hs; [contradiction|].
    destruct gs as [|g' gs']; simpl in *; rewrite <- IH; reflexivity.
Qed.

(** A separator-free prefix followed by a separator is the first segment. *)
Lemma split_app_sep (sep : N) (p rest : jsstring) :
  ~ In sep p -> split sep (p ++ sep :: rest) = p :: split sep rest.
Proof.
  induction p as [|c p IH]; simpl; intros H.
  - now rewrite N.eqb_refl.
  - destruct (N.eqb_spec c sep) as [E|E]; [exfalso; apply H; left; exact E|].
    rewrite IH by (intros C; apply H; right; exact C). reflexivity.
Qed.

Lemma split_no_occurrence (sep : N) (p : jsstring) :
  ~ In sep p -> split sep p = [p].
Proof.
  induction p as [|c p IH]; simpl; intros H; [reflexivity|].
  destruct (N.eqb_spec c sep) as [E|E]; [exfalso; apply H; left; exact E|].
  rewrite IH by (intros C; apply H; right; exact C). reflexivity.
Qed.

(** What [trimStart] leaves does not begin with white space. *)
Lemma trimStart_nil_iff (s : jsstring) :
  trimStart s = [] <-> forallb isWhiteSpace s = true.
Proof.
  induction s as [|c r IH]; simpl; [tauto|].
  destruct (isWhiteSpace c); simpl; [exact IH | split; discriminate].
Qed.

Lemma trimStart_forallb (s : jsstring) :
  forallb isWhiteSpace (trimStart s) = forallb isWhiteSpace s.
Proof.
  induction s as [|c r IH]; simpl; [reflexivity|].
  destruct (isWhiteSpace c) eqn:E; simpl; [exact IH | now rewrite E].
Qed.

Lemma forallb_rev (f : N -> bool) (s : jsstring) :
  forallb f (rev s) = forallb f s.
Proof.
  induction s as [|c r IH]; simpl; [reflexivity|].
  rewrite forallb_app, IH. simpl. rewrite andb_true_r. apply andb_comm.
Qed.

(** [trim] gives the empty string exactly on strings of white space. *)
Lemma trim_nil_iff (s : jsstring) :
  trim s = [] <-> forallb isWhiteSpace s = true.
Proof.
  unfold trim, trimEnd.
  rewrite <- (trimStart_forallb s), <- (forallb_rev isWhiteSpace (trimStart s)).
  rewrite <- trimStart_nil_iff.
  split; intros H.
  - apply (f_equal (@rev N)) in H. rewrite rev_involutive in H. exact H.
  - rewrite H. reflexivity.
Qed.

End JsStringFacts.

(** ** Facts about [Permission] *)

Module PermissionFacts.

Import JsStringFacts.

Lemma length_guard (n : nat) :
  (n <? 2) || (3 <? n) = false <-> segment_count_ok n.
Proof.
  unfold segment_count_ok.
  destruct (Nat.ltb_spec n 2), (Nat.ltb_spec 3 n); simpl; split; intros;
    try discriminate; try lia; reflexivity.
Qed.

Lemma valid_resource_no_colon (r : jsstring) :
  In r validResources -> ~ In colon r.
Proof.
  intros H. simpl in H.
  repeat (destruct H as [<-|H]; [vm_compute; intuition discriminate|]).
  destruct H.
Qed.

Lemma valid_action_no_colon (a : jsstring) :
  In a validActions -> ~ In colon a.
Proof.
  intros H. simpl in H.
  repeat (destruct H as [<-|H]; [vm_compute; intuition discriminate|]).
  destruct H.
Qed.

(** The segments of [r:a], [r:a:] and [r:a:sc]. *)
Lemma split_two (r a : jsstring) :
  ~ In colon r -> ~ In colon a ->
  split colon (r ++ colon :: a) = [r; a].
Proof.
  intros Hr Ha. rewrite split_app_sep by assumption.
  now rewrite split_no_occurrence.
Qed.

Lemma split_three (r a sc : jsstring) :
  ~ In colon r -> ~ In colon a -> ~ In colon sc ->
  split colon (r ++ colon :: a ++ colon :: sc) = [r; a; sc].
Proof.
  intros Hr Ha Hs. rewrite !split_app_sep by assumption.
  now rewrite split_no_occurrence.
Qed.

(** [create] on a string whose segments are known. *)
Lemma create_of_parts (s r a : jsstring) (rest : list jsstring) :
  split colon s = r :: a :: rest -> (List.length rest <= 1)%nat ->
  isValidResource r = true -> isValidAction a = true ->
  create s = inr (mkPermission r a (nth_error rest 0)).
Proof.
  intros Hs Hl Hr Ha. unfold create. rewrite Hs. simpl.
  rewrite Hr, Ha. simpl.
  destruct rest as [|x [|y rest]]; simpl in *; try reflexivity; lia.
Qed.

(** *** Matching *)

Lemma matches_iff_rule (a b : Permission) :
  matches a b = true <-> matches_rule a b.
Proof.
  unfold matches, matches_rule.
  destruct (eqb (resource a) (resource b)) eqn:Er; simpl.
  2:{ apply eqb_neq in Er. split; [discriminate | intros [E _]; contradiction]. }
  apply eqb_eq in Er.
  destruct (eqb (action a) (lit "manage")) eqn:Em.
  { apply eqb_eq in Em. split; [auto | reflexivity]. }
  apply eqb_neq in Em.
  destruct (eqb (action a) (action b)) eqn:Ea; simpl.
  2:{ apply eqb_neq in Ea. split; [discriminate|].
      intros [_ [E|[E _]]]; contradiction. }
  apply eqb_eq in Ea.
  destruct (truthy (scope b)) eqn:Tb.
  - rewrite orb_true_iff, negb_true_iff, opt_eqb_eq. split.
    + intros [H|H]; (split; [assumption | right; split; [assumption | auto]]).
    + intros [_ [E|[_ [H|[H|H]]]]]; [contradiction | discriminate | auto | auto].
  - split; [intros _ | reflexivity]. auto.
Qed.

(** C2 (as amended): [a.matches(b)] holds exactly when the resources are
    equal and either [a]'s action is [manage], or the actions are equal and
    [b]'s scope is falsy (absent or empty), or [a]'s scope is falsy, or the
    two scopes are equal.  A [manage] grant therefore matches every action
    on its resource, and permissions on different resources never match. *)
Theorem matches_characterised (a b : Permission) :
  (matches a b = true <-> matches_rule a b)
  /\ (resource a = resource b -> action a = lit "manage" -> matches a b = true)
  /\ (resource a <> resource b -> matches a b = false).
Proof.
  split; [apply matches_iff_rule | split].
  - intros Er Em. apply matches_iff_rule. split; [exact Er | left; exact Em].
  - intros Hn. destruct (matches a b) eqn:M; [|reflexivity].
    apply matches_iff_rule in M. destruct M as [E _]. contradiction.
Qed.

(** C2, as stated, fails when a scope is the empty string: the grant
    [grade:update:class_123] matches the requirement [grade:update:]
    although the requirement carries a scope, the grant carries one too, and
    the two differ. *)
Lemma matches_empty_scope_counterexample :
  exists a b : Permission,
    create (lit "grade:update:class_123") = inr a
    /\ create (lit "grade:update:") = inr b
    /\ scope b = Some []
    /\ matches a b = true
    /\ ~ matches_as_specified a b.
Proof.
  eexists. eexists.
  split; [vm_compute; reflexivity|].
  split; [vm_compute; reflexivity|].
  split; [reflexivity|].
  split; [vm_compute; reflexivity|].
  unfold matches_as_specified. simpl.
  intros [_ [H|[_ [H|[H|H]]]]]; vm_compute in H; discriminate.
Qed.

(** C10: matching is not transitive.  [grade:update:class_123] matches
    [grade:update], which matches [grade:update:class_456], yet the first
    does not match the last; [implies] behaves the same. *)
Theorem matches_not_transitive :
  exists a b c : Permission,
    create (lit "grade:update:class_123") = inr a
    /\ create (lit "grade:update") = inr b
    /\ create (lit "grade:update:class_456") = inr c
    /\ matches a b = true /\ matches b c = true /\ matches a c = false
    /\ implies a b = true /\ implies b c = true /\ implies a c = false.
Proof.
  eexists. eexists. eexists.
  repeat (split; [vm_compute; reflexivity|]).
  vm_compute; reflexivity.
Qed.

(** *** Parsing *)

(** The three outcomes of [create] past the length check, by the two
    membership tests in the order the code performs them. *)
Lemma create_cases (s : jsstring) :
  let parts := split colon s in
  let r := nth 0 parts [] in
  let a := nth 1 parts [] in
  (~ segment_count_ok (List.length parts) /\ create s = inl InvalidFormat)
  \/ (segment_count_ok (List.length parts) /\ ~ In r validResources
      /\ create s = inl (InvalidResource r))
  \/ (segment_count_ok (List.length parts) /\ In r validResources
      /\ ~ In a validActions /\ create s = inl (InvalidAction a))
  \/ (segment_count_ok (List.length parts) /\ In r validResources
      /\ In a validActions
      /\ create s = inr (mkPermission r a (nth_error parts 2))).
Proof.
  intros parts r a. unfold create. fold parts. fold r. fold a.
  destruct ((List.length parts <? 2) || (3 <? List.length parts)) eqn:G.
  - left. split; [|reflexivity].
    intros C. apply length_guard in C. congruence.
  - apply length_guard in G. right.
    unfold isValidResource, isValidAction.
    destruct (includes validResources r) eqn:Hr; cbn [negb].
    + apply includes_In in Hr.
      destruct (includes validActions a) eqn:Ha; cbn [negb].
      * apply includes_In in Ha. right. right. auto.
      * apply includes_not_In in Ha. right. left. auto.
    + apply includes_not_In in Hr. left. auto.
Qed.

Ltac by_outcome C :=
  destruct C as [[? ?]|[[? [? ?]]|[[? [? [? ?]]]|[? [? [? ?]]]]]];
  solve [ assumption | contradiction | congruence | eauto ].

(** C3: [create] succeeds exactly when the string has two or three
    colon-separated segments (one or two colons), the first a valid
    resource and the second a valid action; the permission then holds the
    segments as they are, the third unvalidated.  Otherwise the error is
    [InvalidFormat] when the count is wrong (the empty string included),
    else [InvalidResource], else [InvalidAction]. *)
Theorem create_validation (s : jsstring) :
  let parts := split colon s in
  let n := List.length parts in
  let r := nth 0 parts [] in
  let a := nth 1 parts [] in
  n = S (count_occ N.eq_dec s colon)
  /\ ((exists p, create s = inr p) <->
        segment_count_ok n /\ In r validResources /\ In a validActions)
  /\ (forall p, create s = inr p -> p = mkPermission r a (nth_error parts 2))
  /\ (create s = inl InvalidFormat <-> ~ segment_count_ok n)
  /\ ((exists e, create s = inl (InvalidResource e)) <->
        segment_count_ok n /\ ~ In r validResources)
  /\ ((exists e, create s = inl (InvalidAction e)) <->
        segment_count_ok n /\ In r validResources /\ ~ In a validActions)
  /\ (forall e, create s = inl (InvalidResource e) -> e = r)
  /\ (forall e, create s = inl (InvalidAction e) -> e = a)
  /\ (forall x y sc : jsstring,
        In x validResources -> In y validActions -> ~ In colon sc ->
        create (x ++ colon :: y ++ colon :: sc)
          = inr (mkPermission x y (Some sc)))
  /\ create [] = inl InvalidFormat
  /\ create (lit "bogus:read") = inl (InvalidResource (lit "bogus"))
  /\ create (lit "user:bogus") = inl (InvalidAction (lit "bogus")).
Proof.
  intros parts n r a.
  pose proof (create_cases s) as C. cbv zeta in C.
  fold parts in C. fold n in C. fold r in C. fold a in C.
  split; [apply split_length|].
  split.
  { split; [intros [p Hp] | intros [Hn [Hr Ha]]]; by_outcome C. }
  split.
  { intros p Hp; by_outcome C. }
  split.
  { split; [intros Hp | intros Hn]; by_outcome C. }
  split.
  { split; [intros [e Hp] | intros [Hn Hr]]; by_outcome C. }
  split.
  { split; [intros [e Hp] | intros [Hn [Hr Ha]]]; by_outcome C. }
  split.
  { intros e Hp; by_outcome C. }
  split.
  { intros e Hp; by_outcome C. }
  split.
  { intros x y sc Hx Hy Hsc.
    apply create_of_parts with (rest := [sc]).
    - apply split_three;
        auto using valid_resource_no_colon, valid_action_no_colon.
    - simpl; lia.
    - apply includes_In; exact Hx.
    - apply includes_In; exact Hy. }
  repeat split; vm_compute; reflexivity.
Qed.

(** C8: for every resource [r] and action [a] of the two enumerations,
    [create] accepts [r:a], and parsing the canonical string of the result
    again gives a permission with the same canonical string. *)
Theorem create_toString_roundtrip (r a : jsstring) :
  In r validResources -> In a validActions ->
  exists p p' : Permission,
    create (r ++ colon :: a) = inr p
    /\ create (toString p) = inr p'
    /\ toString p' = toString p.
Proof.
  intros Hr Ha.
  assert (E : create (r ++ colon :: a) = inr (mkPermission r a None)).
  { apply create_of_parts with (rest := []).
    - apply split_two;
        auto using valid_resource_no_colon, valid_action_no_colon.
    - simpl; lia.
    - apply includes_In; exact Hr.
    - apply includes_In; exact Ha. }
  exists (mkPermission r a None), (mkPermission r a None).
  split; [exact E|]. split; [|reflexivity].
  unfold toString; simpl. exact E.
Qed.

Lemma create_toString_roundtrip_witness :
  In (lit "grade") validResources /\ In (lit "read") validActions /\
  exists p p' : Permission,
    create (lit "grade" ++ colon :: lit "read") = inr p
    /\ create (toString p) = inr p'
    /\ toString p' = toString p.
Proof.
  assert (Hr : In (lit "grade") validResources) by (vm_compute; tauto).
  assert (Ha : In (lit "read") validActions) by (vm_compute; tauto).
  split; [exact Hr | split; [exact Ha|]].
  exact (create_toString_roundtrip (lit "grade") (lit "read") Hr Ha).
Defined.

(** C9: for every valid resource [r] and action [a], [create] accepts
    [r:a:] with its empty third segment; the result prints as [r:a], the
    empty scope being dropped, and still is not [equals] to the permission
    parsed from [r:a], whose scope is absent. *)
Theorem create_trailing_colon (r a : jsstring) :
  In r validResources -> In a validActions ->
  exists p q : Permission,
    create (r ++ colon :: a ++ [colon]) = inr p
    /\ scope p = Some []
    /\ toString p = r ++ colon :: a
    /\ create (r ++ colon :: a) = inr q
    /\ scope q = None
    /\ equals p q = false
    /\ equals q p = false.
Proof.
  intros Hr Ha.
  exists (mkPermission r a (Some [])), (mkPermission r a None).
  split.
  { apply create_of_parts with (rest := [[]]).
    - apply split_three with (sc := []);
        auto using valid_resource_no_colon, valid_action_no_colon.
    - simpl; lia.
    - apply includes_In; exact Hr.
    - apply includes_In; exact Ha. }
  split; [reflexivity|]. split; [reflexivity|].
  split.
  { apply create_of_parts with (rest := []).
    - apply split_two;
        auto using valid_resource_no_colon, valid_action_no_colon.
    - simpl; lia.
    - apply includes_In; exact Hr.
    - apply includes_In; exact Ha. }
  split; [reflexivity|].
  unfold equals; simpl. rewrite !andb_false_r. split; reflexivity.
Qed.

Lemma create_trailing_colon_witness :
  In (lit "grade") validResources /\ In (lit "read") validActions /\
  exists p q : Permission,
    create (lit "grade" ++ colon :: lit "read" ++ [colon]) = inr p
    /\ scope p = Some []
    /\ toString p = lit "grade" ++ colon :: lit "read"
    /\ create (lit "grade" ++ colon :: lit "read") = inr q
    /\ scope q = None
    /\ equals p q = false
    /\ equals q p = false.
Proof.
  assert (Hr : In (lit "grade") validResources) by (vm_compute; tauto).
  assert (Ha : In (lit "read") validActions) by (vm_compute; tauto).
  split; [exact Hr | split; [exact Ha|]].
  exact (create_trailing_colon (lit "grade") (lit "read") Hr Ha).
Defined.

End PermissionFacts.

(** ** Facts about [Role] *)

Module RoleFacts.

Import Role JsStringFacts.

Local Open Scope Z_scope.

Lemma eqb_sym (s1 s2 : jsstring) : eqb s1 s2 = eqb s2 s1.
Proof.
  destruct (eqb s2 s1) eqn:E.
  - apply eqb_eq in E. subst. apply eqb_refl.
  - apply eqb_neq in E. apply eqb_neq. congruence.
Qed.

(** [indexOf] finds an index exactly when [includes] holds. *)
Lemma indexOfFrom_found (i : Z) (arr : list jsstring) (x : jsstring) :
  (0 <= i)%Z -> (-1 <? indexOfFrom i arr x)%Z = includes arr x.
Proof.
  revert i; induction arr as [|y rest IH]; intros i Hi; simpl.
  - reflexivity.
  - rewrite (eqb_sym x y). destruct (eqb y x); simpl.
    + apply Z.ltb_lt. lia.
    + apply IH. lia.
Qed.

Lemma indexOf_found (arr : list jsstring) (x : jsstring) :
  (-1 <? indexOf arr x)%Z = includes arr x.
Proof. apply indexOfFrom_found. lia. Qed.

Lemma In_splice1 (n : nat) (arr : list jsstring) (x : jsstring) :
  In x (firstn n arr ++ skipn (S n) arr) -> In x arr.
Proof.
  revert n; induction arr as [|y rest IH]; intros n H.
  - destruct n; simpl in H; exact H.
  - destruct n as [|n]; simpl in H.
    + right; exact H.
    + destruct H as [H|H]; [left; exact H | right; exact (IH n H)].
Qed.

Lemma NoDup_splice1 (n : nat) (arr : list jsstring) :
  NoDup arr -> NoDup (firstn n arr ++ skipn (S n) arr).
Proof.
  revert n; induction arr as [|y rest IH]; intros n H.
  - destruct n; simpl; constructor.
  - inversion H as [|? ? Hy Hrest]; subst.
    destruct n as [|n]; simpl; [exact Hrest|].
    constructor; [|apply IH; exact Hrest].
    intros C. apply Hy. eapply In_splice1. exact C.
Qed.

Lemma NoDup_push (arr : list jsstring) (x : jsstring) :
  NoDup arr -> ~ In x arr -> NoDup (arr ++ [x]).
Proof.
  intros H Hx. apply NoDup_rev in H.
  rewrite <- (rev_involutive (arr ++ [x])). apply NoDup_rev.
  rewrite rev_app_distr. simpl. constructor; [|exact H].
  rewrite <- in_rev. exact Hx.
Qed.

Lemma hasVisibleUnit_iff (s : jsstring) :
  hasVisibleUnit s <-> forallb isWhiteSpace s = false.
Proof.
  unfold hasVisibleUnit. split.
  - intros [c [Hc Hw]]. destruct (forallb isWhiteSpace s) eqn:E; [|reflexivity].
    rewrite forallb_forall in E. rewrite (E c Hc) in Hw. discriminate.
  - induction s as [|c r IH]; simpl; [discriminate|].
    destruct (isWhiteSpace c) eqn:E; simpl.
    + intros H. destruct (IH H) as [d [Hd Hw]]. exists d. auto.
    + intros _. exists c. auto.
Qed.

Lemma trim_visible (s : jsstring) : hasVisibleUnit s <-> trim s <> [].
Proof.
  rewrite hasVisibleUnit_iff, trim_nil_iff.
  destruct (forallb isWhiteSpace s); split; congruence.
Qed.

(** *** Queries *)

(** C1: [hasPermission] is exact membership in the stored list and nothing
    more.  A role holding only [grade:manage] answers [true] for
    [grade:manage] and [false] for [grade:read], although the permission
    [grade:manage] does match [grade:read]. *)
Theorem hasPermission_exact_membership :
  (forall (this : Role) (p : jsstring),
      hasPermission this p = true <-> In p (permissions this))
  /\ hasPermission (newRole "teacher" "Teacher" [lit "grade:manage"])
       (lit "grade:manage") = true
  /\ hasPermission (newRole "teacher" "Teacher" [lit "grade:manage"])
       (lit "grade:read") = false
  /\ (exists g r : Permission,
        Permission.create (lit "grade:manage") = inr g
        /\ Permission.create (lit "grade:read") = inr r
        /\ matches g r = true).
Proof.
  split; [intros this p; apply includes_In|].
  split; [vm_compute; reflexivity|].
  split; [vm_compute; reflexivity|].
  eexists. eexists.
  split; [vm_compute; reflexivity|].
  split; vm_compute; reflexivity.
Qed.

(** *** The permission list *)

Lemma addPermission_NoDup (now : Date) (p : jsstring) (this : Role) :
  duplicateFree this -> duplicateFree (addPermission now p this).
Proof.
  unfold duplicateFree, addPermission. intros H.
  destruct (includes (permissions this) p) eqn:E; simpl; [exact H|].
  apply NoDup_push; [exact H | apply includes_not_In; exact E].
Qed.

Lemma removePermission_NoDup (now : Date) (p : jsstring) (this : Role) :
  duplicateFree this -> duplicateFree (removePermission now p this).
Proof.
  unfold duplicateFree, removePermission. intros H.
  destruct (-1 <? indexOf (permissions this) p)%Z; simpl; [|exact H].
  apply NoDup_splice1; exact H.
Qed.

(** C4 (as amended): [addPermission] and [removePermission] keep a
    duplicate-free permission list duplicate-free; [create], [reconstitute]
    and [setPermissions] store the list they are given as it is, so the
    role is duplicate-free after them exactly when that list is. *)
Theorem permissions_duplicate_freedom :
  (forall (now : Date) (p : jsstring) (this : Role),
      duplicateFree this -> duplicateFree (addPermission now p this))
  /\ (forall (now : Date) (p : jsstring) (this : Role),
        duplicateFree this -> duplicateFree (removePermission now p this))
  /\ (forall (uuid : jsstring) (now : Date) (props : CreateProps),
        permissions (Role.create uuid now props)
          = match read (cp_permissions props) with
            | Some l => l
            | None => []
            end)
  /\ (forall props : Role, permissions (reconstitute props) = permissions props)
  /\ (forall (now : Date) (perms : list jsstring) (this : Role),
        permissions (setPermissions now perms this) = perms
        /\ (duplicateFree (setPermissions now perms this) <-> NoDup perms)).
Proof.
  split; [exact addPermission_NoDup|].
  split; [exact removePermission_NoDup|].
  split; [reflexivity|].
  split; [reflexivity|].
  intros now perms this. split; [reflexivity|].
  unfold duplicateFree; simpl. tauto.
Qed.

Lemma permissions_duplicate_freedom_witness :
  duplicateFree (newRole "teacher" "Teacher" [lit "read:students"])
  /\ duplicateFree
       (addPermission 1 (lit "read:students")
          (newRole "teacher" "Teacher" [lit "read:students"]))
  /\ duplicateFree
       (removePermission 1 (lit "read:students")
          (newRole "teacher" "Teacher" [lit "read:students"])).
Proof.
  assert (H : duplicateFree (newRole "teacher" "Teacher" [lit "read:students"])).
  { unfold duplicateFree. vm_compute. constructor; [intros [] | constructor]. }
  split; [exact H|]. split.
  - exact (proj1 permissions_duplicate_freedom 1%Z (lit "read:students") _ H).
  - exact (proj1 (proj2 permissions_duplicate_freedom) 1%Z
             (lit "read:students") _ H).
Defined.

(** C4, as stated, fails: a role created with, reconstituted from, or set
    to the list [grade:read, grade:read] holds that string twice. *)
Lemma duplicate_permissions_counterexample :
  let twice := [lit "grade:read"; lit "grade:read"] in
  ~ duplicateFree (newRole "teacher" "Teacher" twice)
  /\ ~ duplicateFree (setPermissions 1 twice (newRole "teacher" "Teacher" []))
  /\ ~ duplicateFree
        (reconstitute
           (mkRole (lit "id") (lit "teacher") (lit "Teacher") None twice None
              true 0 0)).
Proof.
  assert (D : forall x : jsstring, ~ NoDup [x; x]).
  { intros x H. inversion H as [|? ? Hx _]. apply Hx. left; reflexivity. }
  cbv zeta. unfold duplicateFree.
  split; [apply D | split; apply D].
Qed.

(** *** Time stamps *)

Lemma updatedAt_touch (now : Date) (this : Role) :
  updatedAt (touch now this) = now.
Proof. reflexivity. Qed.

Lemma updatedAt_updateDetails (now : Date) (props : UpdateProps) (this : Role) :
  updatedAt (updateDetails now props this) = now.
Proof. reflexivity. Qed.

Lemma stamped_advances (m : Date -> Role -> Role) :
  (forall now this, updatedAt (m now this) = now) -> advancesUpdatedAt m.
Proof. intros H now this Hlt. rewrite H. exact Hlt. Qed.

Lemma addPermission_present (now : Date) (p : jsstring) (this : Role) :
  hasPermission this p = true -> addPermission now p this = this.
Proof. unfold hasPermission, addPermission. intros ->. reflexivity. Qed.

Lemma removePermission_absent (now : Date) (p : jsstring) (this : Role) :
  hasPermission this p = false -> removePermission now p this = this.
Proof.
  unfold hasPermission, removePermission. intros H.
  rewrite indexOf_found, H. reflexivity.
Qed.

(** C5 (as amended): [updateDetails], [setPermissions], [activate] and
    [deactivate] stamp [updatedAt] with the clock reading of the call on
    every call, and so advance it.  [addPermission] stamps it only when the
    string was not yet in the list, [removePermission] only when it was;
    otherwise they leave the whole role, [updatedAt] included, as it was. *)
Theorem mutators_updatedAt (now : Date) (this : Role) :
  (forall props, updatedAt (updateDetails now props this) = now)
  /\ (forall perms, updatedAt (setPermissions now perms this) = now)
  /\ updatedAt (activate now this) = now
  /\ updatedAt (deactivate now this) = now
  /\ (forall props, advancesUpdatedAt (fun t => updateDetails t props))
  /\ (forall perms, advancesUpdatedAt (fun t => setPermissions t perms))
  /\ advancesUpdatedAt activate
  /\ advancesUpdatedAt deactivate
  /\ (forall p, updatedAt (addPermission now p this)
                = if hasPermission this p then updatedAt this else now)
  /\ (forall p, updatedAt (removePermission now p this)
                = if hasPermission this p then now else updatedAt this)
  /\ (forall p, hasPermission this p = true -> addPermission now p this = this)
  /\ (forall p, hasPermission this p = false ->
                removePermission now p this = this).
Proof.
  repeat (split; [first [ reflexivity
                        | intros; reflexivity
                        | intros; apply stamped_advances; reflexivity ]|]).
  split.
  { intros p. unfold addPermission, hasPermission.
    destruct (includes (permissions this) p); reflexivity. }
  split.
  { intros p. unfold removePermission, hasPermission.
    rewrite indexOf_found.
    destruct (includes (permissions this) p); reflexivity. }
  split; intros p.
  - apply addPermission_present.
  - apply removePermission_absent.
Qed.

(** C5, as stated, fails: on a role stamped at [0] that holds only
    [grade:read], adding [grade:read] again or removing [grade:update] at
    clock reading [5] leaves [updatedAt] at [0]. *)
Lemma updatedAt_unchanged_counterexample :
  let r := newRole "teacher" "Teacher" [lit "grade:read"] in
  updatedAt r = 0
  /\ updatedAt (addPermission 5 (lit "grade:read") r) = 0
  /\ updatedAt (removePermission 5 (lit "grade:update") r) = 0
  /\ ~ advancesUpdatedAt (fun t => addPermission t (lit "grade:read"))
  /\ ~ advancesUpdatedAt (fun t => removePermission t (lit "grade:update")).
Proof.
  cbv zeta.
  split; [reflexivity|]. split; [vm_compute; reflexivity|].
  split; [vm_compute; reflexivity|].
  split; intros A;
    specialize (A 5 (newRole "teacher" "Teacher" [lit "grade:read"]));
    vm_compute in A; specialize (A eq_refl); discriminate.
Qed.

(** *** Details *)

(** C6 (as amended): [updateDetails] sets the description to [null] when
    it is given the empty string (or one that trims to it) and to the
    trimmed string otherwise; given [undefined] for the description, as
    when the description is left out, it keeps the stored description.
    The display name changes only when a non-empty one is given, and no
    other field but [updatedAt] changes. *)
Theorem updateDetails_fields (now : Date) (this : Role)
    (dn ds : JsField jsstring) :
  description (updateDetails now (mkUpdateProps dn (Value [])) this) = None
  /\ (forall s, description (updateDetails now (mkUpdateProps dn (Value s)) this)
                = match trim s with [] => None | t => Some t end)
  /\ description (updateDetails now (mkUpdateProps dn Omitted) this)
       = description this
  /\ description (updateDetails now (mkUpdateProps dn Undefined) this)
       = description this
  /\ displayName (updateDetails now (mkUpdateProps Omitted ds) this)
       = displayName this
  /\ displayName (updateDetails now (mkUpdateProps Undefined ds) this)
       = displayName this
  /\ displayName (updateDetails now (mkUpdateProps (Value []) ds) this)
       = displayName this
  /\ (forall c s,
        displayName (updateDetails now (mkUpdateProps (Value (c :: s)) ds) this)
          = trim (c :: s))
  /\ (let r := updateDetails now (mkUpdateProps dn ds) this in
      id r = id this /\ name r = name this
      /\ permissions r = permissions this /\ tenantId r = tenantId this
      /\ isActive r = isActive this /\ createdAt r = createdAt this).
Proof.
  split; [destruct dn as [| |[|c s]]; reflexivity|].
  split.
  { intros s. unfold updateDetails; simpl.
    destruct dn as [| |[|c d]]; simpl; unfold orNull; simpl;
      destruct (trim s); reflexivity. }
  split; [destruct dn as [| |[|c s]]; reflexivity|].
  split; [destruct dn as [| |[|c s]]; reflexivity|].
  split; [destruct ds; reflexivity|].
  split; [destruct ds; reflexivity|].
  split; [destruct ds; reflexivity|].
  split; [intros c s; destruct ds; reflexivity|].
  cbv zeta. destruct dn as [| |[|c s]], ds; repeat split; reflexivity.
Qed.

(** C6, as stated, fails: after the description is set to [x], a call
    whose argument carries [description: undefined] leaves it [x], where
    the claim has it cleared to [null]. *)
Lemma updateDetails_undefined_counterexample :
  let r := updateDetails 1 (mkUpdateProps Omitted (Value (lit "x")))
             (newRole "admin" "Admin" []) in
  description r = Some (lit "x")
  /\ description (updateDetails 2 (mkUpdateProps Omitted Undefined) r)
       = Some (lit "x")
  /\ description (updateDetails 2 (mkUpdateProps Omitted Undefined) r) <> None.
Proof.
  cbv zeta. split; [vm_compute; reflexivity|].
  split; [vm_compute; reflexivity|]. vm_compute. discriminate.
Qed.

(** C7 (as amended): for every string [s] holding at least one code unit
    that is not white space, the display name after [Role.create] with
    display name [s], and after [updateDetails] given display name [s], is
    [trim s], which is not empty. *)
Theorem displayName_nonempty (s : jsstring) :
  hasVisibleUnit s ->
  (forall uuid now n d ps t,
      getDisplayName (Role.create uuid now (mkCreateProps n s d ps t)) = trim s)
  /\ (forall now ds this,
        getDisplayName (updateDetails now (mkUpdateProps (Value s) ds) this)
          = trim s)
  /\ trim s <> [].
Proof.
  intros H. split; [reflexivity|]. split.
  - intros now ds this. destruct s as [|c s].
    + destruct H as [c [[] _]].
    + destruct ds; reflexivity.
  - apply trim_visible; exact H.
Qed.

Lemma displayName_nonempty_witness :
  hasVisibleUnit (lit " Senior Teacher ")
  /\ getDisplayName
       (updateDetails 1 (mkUpdateProps (Value (lit " Senior Teacher ")) Omitted)
          (newRole "teacher" "Teacher" []))
     = lit "Senior Teacher".
Proof.
  assert (H : hasVisibleUnit (lit " Senior Teacher ")).
  { exists 83%N. split; [vm_compute; tauto | reflexivity]. }
  split; [exact H|].
  rewrite (proj1 (proj2 (displayName_nonempty (lit " Senior Teacher ") H))).
  reflexivity.
Defined.

(** C7, as stated, fails: the one-space string is not empty, yet the
    display name it leaves, through [Role.create] and through
    [updateDetails], is the empty string. *)
Lemma displayName_blank_counterexample :
  lit " " <> []
  /\ getDisplayName (newRole "admin" " " []) = []
  /\ getDisplayName
       (updateDetails 1 (mkUpdateProps (Value (lit " ")) Omitted)
          (newRole "admin" "Admin" []))
     = [].
Proof.
  split; [vm_compute; discriminate|].
  split; vm_compute; reflexivity.
Qed.

End RoleFacts.

(** ** Further laws of [Permission] *)

Module PermissionLaws.

Import JsStringFacts PermissionFacts.

Lemma truthy_Some_nonempty (s : jsstring) :
  s <> [] -> truthy (Some s) = true.
Proof. destruct s; [congruence | reflexivity]. Qed.

(** The segments [create] kept, as a decomposition of its input. *)
Lemma create_inr_parts (s : jsstring) (p : Permission) :
  create s = inr p ->
  In (resource p) validResources /\ In (action p) validActions
  /\ ((split colon s = [resource p; action p] /\ scope p = None)
      \/ (exists sc, split colon s = [resource p; action p; sc]
                     /\ scope p = Some sc)).
Proof.
  intros H. pose proof (create_cases s) as C. cbv zeta in C.
  destruct C as [[_ E]|[[_ [_ E]]|[[_ [_ [_ E]]]|[Hn [Hr [Ha E]]]]]];
    try congruence.
  rewrite H in E. injection E as ->. simpl.
  split; [exact Hr|]. split; [exact Ha|].
  destruct (split colon s) as [|x [|y [|z [|w rest]]]];
    destruct Hn as [Hn|Hn]; simpl in Hn; try discriminate.
  - left. split; reflexivity.
  - right. exists z. split; reflexivity.
Qed.

Lemma equals_eq (a b : Permission) : equals a b = true <-> a = b.
Proof.
  unfold equals. rewrite !andb_true_iff, !eqb_eq, opt_eqb_eq.
  destruct a as [ra aa sa], b as [rb ab sb]; simpl. split.
  - intros [[-> ->] ->]. reflexivity.
  - intros E. injection E as -> -> ->. auto.
Qed.

(** X1: [equals] is structural equality of the three fields, an absent
    scope being different from every string, the empty one included; it
    is therefore reflexive, symmetric and transitive. *)
Theorem equals_structural (a b c : Permission) :
  (equals a b = true <-> a = b)
  /\ equals a a = true
  /\ equals a b = equals b a
  /\ (equals a b = true -> equals b c = true -> equals a c = true)
  /\ equals (mkPermission (resource a) (action a) None)
        (mkPermission (resource a) (action a) (Some [])) = false.
Proof.
  split; [apply equals_eq|].
  split; [apply equals_eq; reflexivity|].
  split.
  { destruct (equals b a) eqn:E.
    - apply equals_eq in E. subst. apply equals_eq. reflexivity.
    - destruct (equals a b) eqn:E'; [|reflexivity].
      apply equals_eq in E'. subst.
      rewrite (proj2 (equals_eq b b) eq_refl) in E. discriminate. }
  split.
  { intros E1 E2. apply equals_eq in E1. apply equals_eq in E2.
    apply equals_eq. congruence. }
  unfold equals; simpl. apply andb_false_r.
Qed.

(** X2: every permission matches itself, and two permissions that are
    [equals] match each other in both directions. *)
Theorem matches_reflexive :
  (forall a : Permission, matches a a = true /\ implies a a = true)
  /\ (forall a b : Permission,
        equals a b = true -> matches a b = true /\ matches b a = true).
Proof.
  assert (R : forall a : Permission, matches a a = true).
  { intros a. apply matches_iff_rule. split; [reflexivity|].
    right. split; [reflexivity|]. right. right. reflexivity. }
  split.
  - intros a. split; apply R.
  - intros a b E. apply equals_eq in E. subst b. split; apply R.
Qed.

(** X3: matching is transitive as soon as the middle permission has a
    non-empty scope, or the first has none, or the last has none. *)
Theorem matches_transitive_when (a b c : Permission) :
  matches a b = true -> matches b c = true ->
  truthy (scope a) = false \/ truthy (scope b) = true
  \/ truthy (scope c) = false ->
  matches a c = true.
Proof.
  intros Hab Hbc Hs.
  apply matches_iff_rule in Hab. apply matches_iff_rule in Hbc.
  apply matches_iff_rule.
  destruct Hab as [Rab Aab], Hbc as [Rbc Abc].
  split; [congruence|].
  destruct Aab as [M|[Eab Sab]]; [left; exact M|].
  destruct Abc as [M|[Ebc Sbc]]; [left; congruence|].
  right. split; [congruence|].
  destruct Hs as [Ta|[Tb|Tc]]; [auto | | auto].
  destruct Sab as [F|[F|Eq1]]; [congruence | auto |].
  destruct Sbc as [F|[F|Eq2]]; [auto | congruence |].
  right. right. congruence.
Qed.

Lemma matches_transitive_when_witness :
  let a := mkPermission (lit "grade") (lit "update") None in
  let b := mkPermission (lit "grade") (lit "update") (Some (lit "class_123")) in
  let c := mkPermission (lit "grade") (lit "update") (Some (lit "class_123")) in
  matches a b = true /\ matches b c = true /\ matches a c = true.
Proof.
  cbv zeta. split; [reflexivity|]. split; [reflexivity|].
  apply (matches_transitive_when
           (mkPermission (lit "grade") (lit "update") None)
           (mkPermission (lit "grade") (lit "update") (Some (lit "class_123")))
           (mkPermission (lit "grade") (lit "update") (Some (lit "class_123"))));
    [reflexivity | reflexivity | left; reflexivity].
Defined.

(** X4: printing undoes parsing.  When [create] accepts [s] and the scope
    it kept is not the empty string, [toString] of the result is [s]. *)
Theorem toString_create (s : jsstring) (p : Permission) :
  create s = inr p -> scope p <> Some [] -> toString p = s.
Proof.
  intros H Hs. destruct (create_inr_parts s p H) as [_ [_ [[E N]|[sc [E N]]]]];
    rewrite <- (join_split colon s), E; unfold toString; rewrite N; simpl.
  - reflexivity.
  - rewrite N in Hs.
    destruct sc as [|c sc]; [exfalso; apply Hs; reflexivity|]. reflexivity.
Qed.

Lemma toString_create_witness :
  create (lit "grade:update:class_123")
    = inr (mkPermission (lit "grade") (lit "update") (Some (lit "class_123")))
  /\ toString
       (mkPermission (lit "grade") (lit "update") (Some (lit "class_123")))
     = lit "grade:update:class_123".
Proof.
  assert (H : create (lit "grade:update:class_123")
              = inr (mkPermission (lit "grade") (lit "update")
                       (Some (lit "class_123")))) by (vm_compute; reflexivity).
  split; [exact H|].
  apply (toString_create _ _ H). simpl. discriminate.
Defined.

(** X5: parsing the printed form of a parsed permission succeeds and
    gives the same resource and action, with the same scope unless that
    was the empty string, which comes back absent; the printed form is
    unchanged. *)
Theorem create_toString_stable (s : jsstring) (p : Permission) :
  create s = inr p ->
  let p' := mkPermission (resource p) (action p)
              (if truthy (scope p) then scope p else None) in
  create (toString p) = inr p' /\ toString p' = toString p.
Proof.
  intros H p'.
  destruct (create_inr_parts s p H) as [Hr [Ha Hparts]].
  assert (Nr : ~ In colon (resource p)) by (apply valid_resource_no_colon, Hr).
  assert (Na : ~ In colon (action p)) by (apply valid_action_no_colon, Ha).
  apply includes_In in Hr. apply includes_In in Ha.
  destruct p as [r a sc]; simpl in *. unfold p', toString; simpl.
  destruct sc as [[|c sc]|]; simpl.
  - split; [|reflexivity].
    apply create_of_parts with (rest := []); auto using split_two.
  - split; [|reflexivity].
    destruct Hparts as [[_ N]|[sc' [E N]]]; [discriminate|].
    injection N as <-.
    assert (Ns : ~ In colon (c :: sc)).
    { apply (split_no_sep colon s). rewrite E. simpl; auto. }
    apply create_of_parts with (rest := [c :: sc]); auto.
    apply (split_three r a (c :: sc)); assumption.
  - split; [|reflexivity].
    apply create_of_parts with (rest := []); auto using split_two.
Qed.

Lemma create_toString_stable_witness :
  create (lit "grade:read:")
    = inr (mkPermission (lit "grade") (lit "read") (Some []))
  /\ create (toString (mkPermission (lit "grade") (lit "read") (Some [])))
     = inr (mkPermission (lit "grade") (lit "read") None).
Proof.
  assert (H : create (lit "grade:read:")
              = inr (mkPermission (lit "grade") (lit "read") (Some [])))
    by (vm_compute; reflexivity).
  split; [exact H|].
  exact (proj1 (create_toString_stable _ _ H)).
Defined.

(** X6: [fromComponents] does not look at the scope.  For a valid
    resource and action and a non-empty scope, the printed permission
    parses back to the same permission exactly when the scope holds no
    colon; with a colon in the scope, parsing it fails with the format
    error. *)
Theorem fromComponents_scope_colon (r a sc : jsstring) :
  In r validResources -> In a validActions -> sc <> [] ->
  (~ In colon sc ->
   create (toString (fromComponents r a (Some sc)))
     = inr (fromComponents r a (Some sc)))
  /\ (In colon sc ->
      create (toString (fromComponents r a (Some sc))) = inl InvalidFormat).
Proof.
  intros Hr Ha Hsc.
  assert (Nr : ~ In colon r) by (apply valid_resource_no_colon, Hr).
  assert (Na : ~ In colon a) by (apply valid_action_no_colon, Ha).
  unfold fromComponents, toString. cbn [scope resource action].
  rewrite (truthy_Some_nonempty sc Hsc).
  change (r ++ [colon] ++ a ++ [colon] ++ sc)
    with (r ++ colon :: a ++ colon :: sc).
  split.
  - intros Ns. apply create_of_parts with (rest := [sc]).
    + apply (split_three r a sc); assumption.
    + simpl; lia.
    + apply includes_In; exact Hr.
    + apply includes_In; exact Ha.
  - intros Hc. unfold create.
    rewrite split_length.
    rewrite count_occ_app. simpl.
    destruct (N.eq_dec colon colon) as [_|C]; [|congruence].
    rewrite count_occ_app. simpl.
    destruct (N.eq_dec colon colon) as [_|C]; [|congruence].
    apply (count_occ_In N.eq_dec) in Hc.
    replace (3 <? _) with true; [now rewrite orb_true_r|].
    symmetry. apply Nat.ltb_lt. lia.
Qed.

Lemma fromComponents_scope_colon_witness :
  In (lit "grade") validResources /\ In (lit "update") validActions
  /\ create (toString (fromComponents (lit "grade") (lit "update")
                         (Some (lit "class:123"))))
     = inl InvalidFormat.
Proof.
  assert (Hr : In (lit "grade") validResources) by (vm_compute; tauto).
  assert (Ha : In (lit "update") validActions) by (vm_compute; tauto).
  split; [exact Hr|]. split; [exact Ha|].
  apply (fromComponents_scope_colon (lit "grade") (lit "update")
           (lit "class:123") Hr Ha).
  - vm_compute; discriminate.
  - vm_compute; tauto.
Defined.

End PermissionLaws.

(** ** Further laws of [Role] *)

Module RoleLaws.

Import Role RoleLifecycle JsStringFacts RoleFacts.

Local Open Scope Z_scope.

Lemma indexOfFrom_first (i : Z) (l1 l2 : list jsstring) (p : jsstring) :
  ~ In p l1 ->
  indexOfFrom i (l1 ++ p :: l2) p = (i + Z.of_nat (List.length l1))%Z.
Proof.
  revert i; induction l1 as [|y l1 IH]; intros i H; simpl.
  - rewrite eqb_refl. lia.
  - destruct (eqb y p) eqn:E.
    + apply eqb_eq in E. exfalso. apply H. left; exact E.
    + rewrite IH by (intros C; apply H; right; exact C). lia.
Qed.

Lemma splice1_middle (l1 l2 : list jsstring) (p : jsstring) :
  splice1 (Z.of_nat (List.length l1)) (l1 ++ p :: l2) = l1 ++ l2.
Proof.
  unfold splice1. rewrite Nat2Z.id.
  induction l1 as [|y l1 IH]; [reflexivity|].
  simpl in *. f_equal. exact IH.
Qed.

Lemma first_occurrence (l : list jsstring) (p : jsstring) :
  In p l -> exists l1 l2, l = l1 ++ p :: l2 /\ ~ In p l1.
Proof.
  induction l as [|y l IH]; intros H; [destruct H|].
  destruct (eqb y p) eqn:E.
  - apply eqb_eq in E. subst y. exists [], l. split; [reflexivity | intros []].
  - apply eqb_neq in E. destruct H as [H|H]; [contradiction|].
    destruct (IH H) as [l1 [l2 [-> N]]].
    exists (y :: l1), l2. split; [reflexivity|].
    intros [C|C]; [contradiction | exact (N C)].
Qed.

Lemma removePermission_at (now : Date) (p : jsstring) (this : Role)
    (l1 l2 : list jsstring) :
  permissions this = l1 ++ p :: l2 -> ~ In p l1 ->
  removePermission now p this = touch now (set_permissions (l1 ++ l2) this).
Proof.
  intros E N. unfold removePermission, indexOf. rewrite E.
  rewrite indexOfFrom_first by exact N. simpl (0 + _)%Z.
  replace (-1 <? Z.of_nat (List.length l1))%Z with true
    by (symmetry; apply Z.ltb_lt; lia).
  rewrite splice1_middle. reflexivity.
Qed.

Lemma occurrences_app (x : jsstring) (l1 l2 : list jsstring) :
  occurrences x (l1 ++ l2) = (occurrences x l1 + occurrences x l2)%nat.
Proof. unfold occurrences. now rewrite filter_app, length_app. Qed.

Lemma occurrences_absent (x : jsstring) (l : list jsstring) :
  includes l x = false -> occurrences x l = 0%nat.
Proof.
  unfold includes, occurrences. induction l as [|y l IH]; simpl; [reflexivity|].
  destruct (eqb x y); simpl; [discriminate | exact IH].
Qed.

(** X7: [removePermission] takes out the first occurrence and nothing
    else.  When the list is [l1 ++ p :: l2] with no [p] in [l1], the list
    afterwards is [l1 ++ l2], in the same order, and the role is stamped. *)
Theorem removePermission_first_occurrence (now : Date) (p : jsstring)
    (this : Role) (l1 l2 : list jsstring) :
  permissions this = l1 ++ p :: l2 -> ~ In p l1 ->
  permissions (removePermission now p this) = l1 ++ l2
  /\ updatedAt (removePermission now p this) = now.
Proof.
  intros E N. rewrite (removePermission_at now p this l1 l2 E N).
  split; reflexivity.
Qed.

Lemma removePermission_first_occurrence_witness :
  let r := newRole "teacher" "Teacher"
             [lit "grade:read"; lit "grade:update"; lit "grade:read"] in
  permissions (removePermission 7 (lit "grade:update") r)
    = [lit "grade:read"; lit "grade:read"]
  /\ updatedAt (removePermission 7 (lit "grade:update") r) = 7%Z.
Proof.
  cbv zeta.
  apply (removePermission_first_occurrence 7 (lit "grade:update")
           (newRole "teacher" "Teacher"
              [lit "grade:read"; lit "grade:update"; lit "grade:read"])
           [lit "grade:read"] [lit "grade:read"]).
  - reflexivity.
  - vm_compute. intros [C|[]]. discriminate.
Defined.

Lemma includes_after_add (now : Date) (p q : jsstring) (this : Role) :
  includes (permissions (addPermission now p this)) q
    = includes (permissions this) q || eqb q p.
Proof.
  unfold addPermission.
  destruct (includes (permissions this) p) eqn:E; simpl.
  - destruct (eqb q p) eqn:Q; [|now rewrite orb_false_r].
    apply eqb_eq in Q. subst q. rewrite E. reflexivity.
  - unfold includes. rewrite existsb_app. simpl.
    now rewrite orb_false_r.
Qed.

(** X8: after [addPermission p], the role answers [hasPermission q] with
    [true] exactly when it did before or [q] is [p]; in particular it
    answers [true] for [p] itself. *)
Theorem hasPermission_addPermission (now : Date) (p q : jsstring)
    (this : Role) :
  hasPermission (addPermission now p this) q
    = hasPermission this q || eqb q p
  /\ hasPermission (addPermission now p this) p = true.
Proof.
  unfold hasPermission. rewrite !includes_after_add, eqb_refl.
  split; [reflexivity | apply orb_true_r].
Qed.

(** X9: how many times a string occurs after a mutation.  [addPermission p]
    adds one occurrence of [p] when there was none and changes no other
    count; [removePermission p] takes one occurrence of [p] away when there
    is one and changes no other count. *)
Theorem occurrences_after (now : Date) (p q : jsstring) (this : Role) :
  occurrences q (permissions (addPermission now p this))
    = (occurrences q (permissions this)
       + if eqb q p && negb (hasPermission this p) then 1 else 0)%nat
  /\ (occurrences q (permissions (removePermission now p this))
      + if eqb q p && hasPermission this p then 1 else 0)%nat
     = occurrences q (permissions this).
Proof.
  unfold hasPermission. split.
  - unfold addPermission.
    destruct (includes (permissions this) p) eqn:E; simpl.
    + rewrite andb_false_r. lia.
    + rewrite occurrences_app, andb_true_r.
      unfold occurrences at 2. simpl. destruct (eqb q p); reflexivity.
  - destruct (includes (permissions this) p) eqn:E.
    + apply includes_In in E.
      destruct (first_occurrence _ _ E) as [l1 [l2 [Hl N]]].
      rewrite (removePermission_at now p this l1 l2 Hl N). simpl.
      rewrite Hl, !occurrences_app, andb_true_r.
      unfold occurrences. simpl. destruct (eqb q p); simpl; lia.
    + unfold removePermission. rewrite indexOf_found, E, andb_false_r. lia.
Qed.

(** X10: on a duplicate-free role, after [removePermission p] the role
    answers [hasPermission q] with [true] exactly when it did before and
    [q] is not [p]. *)
Theorem hasPermission_removePermission (now : Date) (p q : jsstring)
    (this : Role) :
  duplicateFree this ->
  hasPermission (removePermission now p this) q
    = hasPermission this q && negb (eqb q p).
Proof.
  unfold duplicateFree, hasPermission. intros D.
  destruct (includes (permissions this) p) eqn:E.
  - apply includes_In in E.
    destruct (first_occurrence _ _ E) as [l1 [l2 [Hl N]]].
    rewrite (removePermission_at now p this l1 l2 Hl N). simpl.
    rewrite Hl in D |- *. apply NoDup_remove_2 in D.
    unfold includes. rewrite !existsb_app. simpl.
    destruct (eqb q p) eqn:Q; simpl.
    + apply eqb_eq in Q. subst q. rewrite andb_false_r.
      rewrite <- existsb_app. apply includes_not_In. exact D.
    + now rewrite andb_true_r.
  - unfold removePermission. rewrite indexOf_found, E.
    destruct (eqb q p) eqn:Q; simpl; [|now rewrite andb_true_r].
    apply eqb_eq in Q. subst q. rewrite E. reflexivity.
Qed.

Lemma hasPermission_removePermission_witness :
  let r := newRole "teacher" "Teacher" [lit "read:students"; lit "write:grades"] in
  duplicateFree r
  /\ hasPermission (removePermission 3 (lit "read:students") r)
       (lit "read:students") = false
  /\ hasPermission (removePermission 3 (lit "read:students") r)
       (lit "write:grades") = true.
Proof.
  cbv zeta.
  assert (D : duplicateFree
                (newRole "teacher" "Teacher"
                   [lit "read:students"; lit "write:grades"])).
  { unfold duplicateFree. vm_compute.
    repeat constructor; simpl; intros C; repeat destruct C as [C|C];
      try discriminate; auto. }
  split; [exact D|]. split.
  - rewrite (hasPermission_removePermission 3 (lit "read:students")
               (lit "read:students") _ D). reflexivity.
  - rewrite (hasPermission_removePermission 3 (lit "read:students")
               (lit "write:grades") _ D). reflexivity.
Defined.

(** X11: removing a permission right after adding it to a role that did
    not hold it gives the original list back. *)
Theorem removePermission_addPermission (now1 now2 : Date) (p : jsstring)
    (this : Role) :
  hasPermission this p = false ->
  permissions (removePermission now2 p (addPermission now1 p this))
    = permissions this.
Proof.
  unfold hasPermission. intros H. unfold addPermission. rewrite H. simpl.
  rewrite (removePermission_at now2 p _ (permissions this) []).
  - simpl. apply app_nil_r.
  - reflexivity.
  - apply includes_not_In. exact H.
Qed.

Lemma removePermission_addPermission_witness :
  let r := newRole "teacher" "Teacher" [lit "read:students"] in
  hasPermission r (lit "write:grades") = false
  /\ permissions
       (removePermission 2 (lit "write:grades")
          (addPermission 1 (lit "write:grades") r))
     = [lit "read:students"].
Proof.
  cbv zeta.
  assert (H : hasPermission (newRole "teacher" "Teacher" [lit "read:students"])
                (lit "write:grades") = false) by (vm_compute; reflexivity).
  split; [exact H|].
  exact (removePermission_addPermission 1 2 (lit "write:grades") _ H).
Defined.

(** X12: [addPermission] is idempotent: a second call with the same
    string changes nothing, not even [updatedAt]. *)
Theorem addPermission_idempotent (now1 now2 : Date) (p : jsstring)
    (this : Role) :
  addPermission now2 p (addPermission now1 p this)
    = addPermission now1 p this.
Proof.
  apply addPermission_present. unfold hasPermission.
  rewrite includes_after_add, eqb_refl. apply orb_true_r.
Qed.

(** X13: [hasAllPermissions] holds exactly when every string asked for is
    in the list, [hasAnyPermission] exactly when some string asked for is;
    on the empty array the first is [true] and the second [false], and on
    a one-element array both are [hasPermission]. *)
Theorem hasAll_hasAny (this : Role) (perms : list jsstring) :
  (hasAllPermissions this perms = true <-> incl perms (permissions this))
  /\ (hasAnyPermission this perms = true <->
        exists p, In p perms /\ In p (permissions this))
  /\ hasAllPermissions this [] = true
  /\ hasAnyPermission this [] = false
  /\ (forall p, hasAllPermissions this [p] = hasPermission this p
                /\ hasAnyPermission this [p] = hasPermission this p)
  /\ (perms <> [] -> hasAllPermissions this perms = true ->
      hasAnyPermission this perms = true).
Proof.
  unfold hasAllPermissions, hasAnyPermission, hasPermission.
  split.
  { rewrite forallb_forall. unfold incl.
    split; intros H p Hp; apply includes_In; apply H; exact Hp. }
  split.
  { rewrite existsb_exists.
    split; intros [p [Hp H]]; exists p; (split; [exact Hp|]);
      apply includes_In; exact H. }
  split; [reflexivity|]. split; [reflexivity|].
  split.
  { intros p. simpl. now rewrite andb_true_r, orb_false_r. }
  intros Hne H. destruct perms as [|p rest]; [congruence|].
  simpl in *. apply andb_true_iff in H. destruct H as [-> _]. reflexivity.
Qed.

(** X14: the length of the list grows by one under [addPermission]
    exactly when the string was absent, and shrinks by one under
    [removePermission] exactly when it was present. *)
Theorem permissions_length (now : Date) (p : jsstring) (this : Role) :
  List.length (permissions (addPermission now p this))
    = (List.length (permissions this)
       + if hasPermission this p then 0 else 1)%nat
  /\ (List.length (permissions (removePermission now p this))
      + if hasPermission this p then 1 else 0)%nat
     = List.length (permissions this).
Proof.
  unfold hasPermission. split.
  - unfold addPermission.
    destruct (includes (permissions this) p); simpl; [lia|].
    rewrite length_app. reflexivity.
  - destruct (includes (permissions this) p) eqn:E.
    + apply includes_In in E.
      destruct (first_occurrence _ _ E) as [l1 [l2 [Hl N]]].
      rewrite (removePermission_at now p this l1 l2 Hl N). simpl.
      rewrite Hl, !length_app. simpl. lia.
    + unfold removePermission. rewrite indexOf_found, E. lia.
Qed.

End RoleLaws.

(** ** Invariants along sequences of calls *)

Module RoleLifecycleFacts.

Import Role RoleLifecycle JsStringFacts RoleFacts.

Local Open Scope Z_scope.

Lemma updateDetails_permissions (now : Date) (props : UpdateProps)
    (this : Role) :
  permissions (updateDetails now props this) = permissions this.
Proof.
  destruct props as [[| |[|c s]] [| |d]]; reflexivity.
Qed.

(** What no mutator changes, and the two values [updatedAt] can take. *)
Lemma call_keeps (now : Date) (c : Call) (this : Role) :
  id (call now c this) = id this
  /\ name (call now c this) = name this
  /\ tenantId (call now c this) = tenantId this
  /\ createdAt (call now c this) = createdAt this
  /\ (updatedAt (call now c this) = updatedAt this
      \/ updatedAt (call now c this) = now).
Proof.
  destruct c as [props|p|p|perms| |]; simpl.
  - destruct props as [[| |[|c s]] [| |d]]; simpl; auto 10.
  - unfold addPermission.
    destruct (negb (includes (permissions this) p)); simpl; auto 10.
  - unfold removePermission.
    destruct (-1 <? indexOf (permissions this) p); simpl; auto 10.
  - auto 10.
  - auto 10.
  - auto 10.
Qed.

Lemma monotoneFrom_earlier (t t' : Date) (calls : list (Date * Call)) :
  t' <= t -> monotoneFrom t calls -> monotoneFrom t' calls.
Proof.
  destruct calls as [|[now c] rest]; simpl; [auto|].
  intros Ht [Hn Hrest]. split; [lia | exact Hrest].
Qed.

Lemma call_duplicateFree (now : Date) (c : Call) (this : Role) :
  duplicateFree this ->
  match c with SetPermissions perms => NoDup perms | _ => True end ->
  duplicateFree (call now c this).
Proof.
  intros D Hc. destruct c as [props|p|p|perms| |]; simpl.
  - unfold duplicateFree. rewrite updateDetails_permissions. exact D.
  - apply addPermission_NoDup; exact D.
  - apply removePermission_NoDup; exact D.
  - exact Hc.
  - exact D.
  - exact D.
Qed.

(** X15: along any sequence of mutator calls made at clock readings that
    never run backwards, a role whose [createdAt] is not after its
    [updatedAt] keeps its id, name, tenant and [createdAt]; its
    [updatedAt] never decreases and never falls before [createdAt]. *)
Theorem lifecycle_invariant (calls : list (Date * Call)) (this : Role) :
  createdAt this <= updatedAt this ->
  monotoneFrom (updatedAt this) calls ->
  id (run calls this) = id this
  /\ name (run calls this) = name this
  /\ tenantId (run calls this) = tenantId this
  /\ createdAt (run calls this) = createdAt this
  /\ updatedAt this <= updatedAt (run calls this)
  /\ createdAt (run calls this) <= updatedAt (run calls this).
Proof.
  revert this; induction calls as [|[now c] rest IH]; intros this Hc Hm.
  - simpl. repeat split; try reflexivity; lia.
  - simpl in *. destruct Hm as [Hn Hrest].
    destruct (call_keeps now c this) as [Ei [En [Et [Ec Eu]]]].
    assert (Hu : updatedAt this <= updatedAt (call now c this)
                 /\ updatedAt (call now c this) <= now)
      by (destruct Eu as [-> | ->]; lia).
    destruct (IH (call now c this)) as [Hi [Hna [Ht [Hcr [Hup Hinv]]]]].
    + rewrite Ec. lia.
    + apply monotoneFrom_earlier with (t := now); [lia | exact Hrest].
    + rewrite Hi, Hna, Ht, Hcr in *. repeat split; try assumption; lia.
Qed.

Lemma lifecycle_invariant_witness :
  let r := newRole "teacher" "Teacher" [] in
  let calls :=
    [(3, AddPermission (lit "grade:read"));
     (3, AddPermission (lit "grade:read"));
     (5, Deactivate);
     (9, RemovePermission (lit "grade:update"))] in
  createdAt r <= updatedAt r
  /\ monotoneFrom (updatedAt r) calls
  /\ createdAt (run calls r) = 0
  /\ updatedAt (run calls r) = 5.
Proof.
  cbv zeta.
  assert (Hc : createdAt (newRole "teacher" "Teacher" [])
               <= updatedAt (newRole "teacher" "Teacher" []))
    by (vm_compute; discriminate).
  assert (Hm : monotoneFrom (updatedAt (newRole "teacher" "Teacher" []))
                 [(3, AddPermission (lit "grade:read"));
                  (3, AddPermission (lit "grade:read"));
                  (5, Deactivate);
                  (9, RemovePermission (lit "grade:update"))])
    by (simpl; repeat split; lia).
  split; [exact Hc|]. split; [exact Hm|].
  pose proof (lifecycle_invariant _ _ Hc Hm) as [_ [_ [_ [E _]]]].
  split; [rewrite E; reflexivity | vm_compute; reflexivity].
Defined.

(** X16: a duplicate-free permission list stays duplicate-free along any
    sequence of mutator calls in which every list given to
    [setPermissions] is duplicate-free. *)
Theorem lifecycle_duplicateFree (calls : list (Date * Call)) (this : Role) :
  duplicateFree this -> setsDuplicateFree calls ->
  duplicateFree (run calls this).
Proof.
  revert this; induction calls as [|[now c] rest IH]; intros this D Hs;
    [exact D|].
  simpl. apply IH.
  - apply call_duplicateFree; [exact D|].
    destruct c; simpl in Hs; try exact I. exact (proj1 Hs).
  - destruct c; simpl in Hs; try exact Hs. exact (proj2 Hs).
Qed.

Lemma lifecycle_duplicateFree_witness :
  let r := newRole "teacher" "Teacher" [] in
  let calls :=
    [(1, AddPermission (lit "grade:read"));
     (2, AddPermission (lit "grade:read"));
     (3, SetPermissions [lit "grade:update"]);
     (4, AddPermission (lit "grade:update"))] in
  duplicateFree r /\ setsDuplicateFree calls
  /\ permissions (run calls r) = [lit "grade:update"]
  /\ duplicateFree (run calls r).
Proof.
  cbv zeta.
  assert (D : duplicateFree (newRole "teacher" "Teacher" []))
    by (unfold duplicateFree; simpl; constructor).
  assert (S : setsDuplicateFree
                [(1, AddPermission (lit "grade:read"));
                 (2, AddPermission (lit "grade:read"));
                 (3, SetPermissions [lit "grade:update"]);
                 (4, AddPermission (lit "grade:update"))]).
  { simpl. split; [|exact I]. constructor; [intros [] | constructor]. }
  split; [exact D|]. split; [exact S|].
  split; [vm_compute; reflexivity|].
  exact (lifecycle_duplicateFree _ _ D S).
Defined.

End RoleLifecycleFacts.

(** ** Facts about the role use cases *)

Module RoleUseCaseFacts.

Import Role RoleUseCases JsStringFacts.

Local Open Scope Z_scope.

(** X17: an update request that defines neither display name,
    description nor permissions saves the role exactly as it was found;
    [updatedAt] is not advanced. *)
Theorem updateRole_nothing_defined (role : Role) (now1 now2 : Date)
    (dto : UpdateRoleDTO) :
  isDefined (ur_displayName dto) = false ->
  isDefined (ur_description dto) = false ->
  isDefined (ur_permissions dto) = false ->
  exists res : UpdateRoleResult,
    updateRole (Some role) now1 now2 dto = inr (role, res)
    /\ urr_updatedAt res = updatedAt role
    /\ urr_permissions res = permissions role.
Proof.
  intros Hn Hd Hp. unfold updateRole. rewrite Hn, Hd. simpl.
  unfold isDefined in Hp.
  destruct (read (ur_permissions dto)); [discriminate|].
  eexists. split; [reflexivity|]. split; reflexivity.
Qed.

Lemma updateRole_nothing_defined_witness :
  exists res : UpdateRoleResult,
    updateRole (Some (newRole "teacher" "Teacher" [lit "grade:read"])) 5 6
      (mkUpdateRoleDTO (lit "id") Omitted Undefined Omitted)
    = inr (newRole "teacher" "Teacher" [lit "grade:read"], res)
    /\ urr_updatedAt res = updatedAt (newRole "teacher" "Teacher" [lit "grade:read"])
    /\ urr_permissions res = permissions (newRole "teacher" "Teacher" [lit "grade:read"]).
Proof.
  apply (updateRole_nothing_defined
           (newRole "teacher" "Teacher" [lit "grade:read"]) 5 6
           (mkUpdateRoleDTO (lit "id") Omitted Undefined Omitted));
    reflexivity.
Defined.


(** X19: what [CreateRoleUseCase] saves.  When no role of that name was
    found, the saved role is active whatever the request's [isActive]
    says, carries the request's permission list as it is (the empty list
    when there is none), the trimmed display name, and [createdAt] equal
    to [updatedAt]; the result reports the saved role.  When one was
    found, the use case fails with [DuplicateRoleException]. *)
Theorem createRole_saved (uuid : jsstring) (now : Date)
    (dto : CreateRoleDTO) :
  (exists saved res,
      createRole None uuid now dto = inr (saved, res)
      /\ isActive saved = true
      /\ id saved = uuid /\ name saved = cr_name dto
      /\ displayName saved = trim (cr_displayName dto)
      /\ permissions saved
         = match read (cr_permissions dto) with Some l => l | None => [] end
      /\ tenantId saved = orNull (read (cr_tenantId dto))
      /\ createdAt saved = now /\ updatedAt saved = now
      /\ crr_roleId res = uuid /\ crr_name res = name saved
      /\ crr_displayName res = displayName saved
      /\ crr_permissions res = permissions saved
      /\ crr_createdAt res = now)
  /\ (forall active : JsField bool,
        createRole None uuid now
          (mkCreateRoleDTO (cr_name dto) (cr_displayName dto)
             (cr_description dto) (cr_permissions dto) active
             (cr_tenantId dto))
        = createRole None uuid now dto)
  /\ (forall existing : Role,
        createRole (Some existing) uuid now dto
        = inl (DuplicateRoleException
                 (lit "Role with name " ++ cr_name dto
                    ++ lit " already exists"))).
Proof.
  split; [|split; reflexivity].
  unfold createRole. eexists. eexists. split; [reflexivity|].
  destruct dto as [n dn ds ps act t]. unfold pass. simpl.
  destruct t as [| |t]; simpl; repeat split; reflexivity.
Qed.

End RoleUseCaseFacts.

(** ** Facts about [Password] *)

Module PasswordFacts.

Import Password.

Lemma test_matchCount (class : N -> bool) (s : jsstring) :
  test class s = (0 <? matchCount class s).
Proof.
  unfold test, matchCount. induction s as [|c s IH]; simpl; [reflexivity|].
  destruct (class c); simpl; [reflexivity | exact IH].
Qed.

Lemma matchCount_le_length (class : N -> bool) (s : jsstring) :
  matchCount class s <= List.length s.
Proof. apply filter_length_le. Qed.

(** Case analysis on every threshold test of the goal, the impossible
    combinations dropped as they appear. *)
Ltac by_threshold :=
  repeat match goal with
         | |- context [?a <=? ?b] =>
             destruct (Nat.leb_spec a b); try (exfalso; lia)
         | |- context [?a <? ?b] =>
             destruct (Nat.ltb_spec a b); try (exfalso; lia)
         end.

(** X20: [Password.create] accepts a string exactly when it has 8 to 100
    code units and holds an uppercase letter, a lowercase letter, a digit
    and a special character, and then keeps it unchanged.  Otherwise the
    error is the first that applies of: empty, too short, too long, no
    uppercase, no lowercase, no number, no special character. *)
Theorem password_create_characterised (pw : jsstring) :
  let len := List.length pw in
  let sized := 8 <= len <= 100 in
  (create pw = inr (mkPassword pw) <->
     sized /\ test isUppercase pw = true /\ test isLowercase pw = true
     /\ test isNumber pw = true /\ test isSpecialCharacter pw = true)
  /\ (forall p, create pw = inr p -> p = mkPassword pw)
  /\ (create pw = inl CannotBeEmpty <-> pw = [])
  /\ (create pw = inl TooShort <-> pw <> [] /\ len < 8)
  /\ (create pw = inl TooLong <-> 100 < len)
  /\ (create pw = inl NoUppercase <-> sized /\ test isUppercase pw = false)
  /\ (create pw = inl NoLowercase <->
        sized /\ test isUppercase pw = true /\ test isLowercase pw = false)
  /\ (create pw = inl NoNumber <->
        sized /\ test isUppercase pw = true /\ test isLowercase pw = true
        /\ test isNumber pw = false)
  /\ (create pw = inl NoSpecialCharacter <->
        sized /\ test isUppercase pw = true /\ test isLowercase pw = true
        /\ test isNumber pw = true /\ test isSpecialCharacter pw = false).
Proof.
  intros len sized. unfold create. subst sized len.
  destruct pw as [|c pw'].
  { simpl. repeat split; intros; try discriminate; try congruence;
      try lia; try tauto;
      repeat match goal with H : _ /\ _ |- _ => destruct H end;
      try lia; try congruence. }
  set (pw := c :: pw'). change (truthy (Some pw)) with true. cbn [negb].
  assert (Hne : pw <> []) by discriminate.
  destruct (Nat.ltb_spec (List.length pw) 8);
    [|destruct (Nat.ltb_spec 100 (List.length pw));
      [|destruct (test isUppercase pw);
        [destruct (test isLowercase pw);
         [destruct (test isNumber pw);
          [destruct (test isSpecialCharacter pw)|]|]|]]];
    cbn [negb];
    repeat split; intros;
      repeat match goal with H : _ /\ _ |- _ => destruct H end;
      try discriminate; try congruence; try lia; auto.
Qed.

(** X21: the strength score is a multiple of 5 between 0 and 100, and it
    is 100 exactly for passwords of at least 20 code units with at least
    two uppercase letters, a lowercase letter, two digits and two special
    characters. *)
Theorem getStrengthScore_range (p : Password) :
  getStrengthScore p <= 100
  /\ getStrengthScore p mod 5 = 0
  /\ (getStrengthScore p = 100 <->
        20 <= List.length (value p)
        /\ 2 <= matchCount isUppercase (value p)
        /\ 1 <= matchCount isLowercase (value p)
        /\ 2 <= matchCount isNumber (value p)
        /\ 2 <= matchCount isSpecialCharacter (value p)).
Proof.
  unfold getStrengthScore, addIf.
  generalize (List.length (value p)) (matchCount isUppercase (value p))
    (matchCount isLowercase (value p)) (matchCount isNumber (value p))
    (matchCount isSpecialCharacter (value p)).
  intros len u l n sp. cbv zeta.
  by_threshold; cbn [Nat.add Nat.min];
    (split; [lia | split; [reflexivity | split; lia]]).
Qed.

(** X22: for a password that [create] accepted, the score is at least 50;
    it is at most 70 when the level is [weak] and at least 85 when the
    level is [strong].  The level is [weak] exactly below 12 code units. *)
Theorem created_level_score (pw : jsstring) (p : Password) :
  create pw = inr p ->
  50 <= getStrengthScore p
  /\ (getStrengthLevel p = weak <-> List.length pw < 12)
  /\ (getStrengthLevel p = weak -> getStrengthScore p <= 70)
  /\ (getStrengthLevel p = strong -> 85 <= getStrengthScore p).
Proof.
  intros H.
  assert (E : p = mkPassword pw /\ 8 <= List.length pw
              /\ 0 < matchCount isUppercase pw
              /\ 0 < matchCount isLowercase pw
              /\ 0 < matchCount isNumber pw
              /\ 0 < matchCount isSpecialCharacter pw).
  { revert H. unfold create. rewrite !test_matchCount.
    destruct pw as [|c pw']; [discriminate|].
    set (s := c :: pw'). change (truthy (Some s)) with true. cbn [negb].
    by_threshold; cbn [negb]; intros Hc; try discriminate.
    injection Hc as <-. repeat split; assumption. }
  destruct E as [-> [Hl [Hu [Hlo [Hn Hs]]]]].
  unfold getStrengthScore, getStrengthLevel, addIf. simpl value.
  revert Hl Hu Hlo Hn Hs.
  generalize (List.length pw) (matchCount isUppercase pw)
    (matchCount isLowercase pw) (matchCount isNumber pw)
    (matchCount isSpecialCharacter pw).
  intros len u l n sp Hl Hu Hlo Hn Hs. cbv zeta.
  by_threshold; cbn [Nat.add Nat.min andb];
    (split; [lia|]);
    (split; [split; intros; first [lia | discriminate | reflexivity]|]);
    split; intros; first [lia | discriminate].
Qed.

Lemma created_level_score_witness :
  create (lit "Str0ng&Secure!Pass99")
    = inr (mkPassword (lit "Str0ng&Secure!Pass99"))
  /\ getStrengthLevel (mkPassword (lit "Str0ng&Secure!Pass99")) = strong
  /\ 85 <= getStrengthScore (mkPassword (lit "Str0ng&Secure!Pass99")).
Proof.
  assert (H : create (lit "Str0ng&Secure!Pass99")
              = inr (mkPassword (lit "Str0ng&Secure!Pass99")))
    by (vm_compute; reflexivity).
  split; [exact H|]. split; [vm_compute; reflexivity|].
  apply (created_level_score _ _ H). vm_compute; reflexivity.
Defined.

End PasswordFacts.
